(** * Stack0 SDK: the HTTP transport, response hydration and the
      wait-for-completion operations

    A shallow embedding of [HttpClient] (lib/http-client), of the date
    hydration helpers and of the polling loops of the [Workflows],
    [Webdata], [Screenshots] and [Extraction] clients, and of the
    transform-URL helpers of the [CDN] client, followed by the properties
    of the specification that concern them and by further properties of
    the code.

    JavaScript values are kept dynamically typed, as they are at run time:
    the transport returns whatever the response body decodes to (there is
    no schema validation), and the clients read properties off it. *)

From Stdlib Require Import ZArith String List Lia.
From stdpp Require Import base tactics option list gmap strings pretty.

Local Open Scope Z_scope.
Local Open Scope string_scope.
Local Open Scope list_scope.

(** ** Values *)

(** The time value of a [Date] in milliseconds since the epoch; [None] is
    an Invalid Date. *)
Definition Date : Type := option Z.

(** A JavaScript value as it occurs in a decoded response or a request:
    primitives, a [Date] (after hydration), and [VOpaque] for an array or a
    nested object, whose contents the modelled code never inspects.
    Numbers are restricted to integers; clock readings and durations are
    far below 2^53, where the arithmetic of doubles is exact, and where
    the code subtracts a number of any size the rounding is written out
    ([CDN.round_double]). *)
Inductive JsValue : Type :=
| VUndefined
| VNull
| VBool (b : bool)
| VNum (n : Z)
| VStr (s : string)
| VDate (d : Date)
| VOpaque (tag : N).

(** An object is a finite map from property names to values; reading an
    absent property gives [undefined]. *)
Abbreviation Obj := (gmap string JsValue).

Definition prop (o : Obj) (k : string) : JsValue := default VUndefined (o !! k).

(** What a body decodes to, or what is passed as a request: an object, or
    anything else ([JPrim VUndefined] is an omitted argument). *)
Inductive Json : Type :=
| JObject (o : Obj)
| JPrim (v : JsValue).

(** A thrown [Error]: its message and its own properties, in assignment
    order.  A property holds a primitive, a decoded body or another error. *)
Inductive JsError : Type :=
| MkError (message : string) (props : list (string * ErrProp))
with ErrProp : Type :=
| PVal (v : JsValue)
| PData (j : Json)
| PErr (e : JsError).

Definition err_message (e : JsError) : string :=
  match e with MkError m _ => m end.

Definition err_props (e : JsError) : list (string * ErrProp) :=
  match e with MkError _ ps => ps end.

(** [new Error(message)] *)
Definition new_Error (message : string) : JsError := MkError message [].

(** [error.k = v] on a freshly built error (the keys assigned are distinct) *)
Definition err_set (k : string) (v : ErrProp) (e : JsError) : JsError :=
  MkError (err_message e) (err_props e ++ [(k, v)]).

(** [k in error] *)
Definition err_has (k : string) (e : JsError) : bool :=
  existsb (fun kv => String.eqb (fst kv) k) (err_props e).

(** [error.k] *)
Definition err_get (k : string) (e : JsError) : option ErrProp :=
  snd <$> find (fun kv => String.eqb (fst kv) k) (err_props e).

(** An error carries a value when one of its own properties holds it. *)
Definition carries (e : JsError) (v : ErrProp) : Prop :=
  exists k, In (k, v) (err_props e).

(** ** The host: built-ins the code calls *)

Record Host : Type := {
  (** [new Date(s)] on a string: the host's date parser *)
  Date_parse : string -> Date;
  (** [String(v)] for a [Date], an array or a nested object *)
  String_of : JsValue -> string;
  (** [JSON.stringify] on a value that is not [undefined] *)
  stringify : Json -> string;
  (** the application/x-www-form-urlencoded serializer of [URLSearchParams] *)
  urlencode : string -> string
}.

(** The network and the timers: the reply to the n-th request, how long it
    takes, and by how much the n-th timer fires after the delay the host
    gives it (see [timer_delay]).  Durations are naturals, so the clock
    never runs backwards. *)
Record Response : Type := {
  status : Z;
  statusText : string;
  (** [inl why]: the body is not JSON and [response.json()] rejects with a
      SyntaxError whose message is [why] *)
  body : string + Json
}.

Inductive NetReply : Type :=
| Rejects (why : string)      (* fetch rejects: DNS, refused, aborted *)
| Responds (r : Response).

Record Env : Type := {
  net_reply : nat -> NetReply;
  net_latency : nat -> N;
  timer_lag : nat -> N
}.

(** [response.ok]: the status is in the range 200-299. *)
Definition ok (r : Response) : bool :=
  ((200 <=? status r)%Z && (status r <=? 299)%Z).

(** ** Coercions and operators *)

Definition ToString (h : Host) (v : JsValue) : string :=
  match v with
  | VUndefined => "undefined"
  | VNull => "null"
  | VBool true => "true"
  | VBool false => "false"
  | VNum n => pretty n
  | VStr s => s
  | VDate _ | VOpaque _ => String_of h v
  end.

Definition truthy (v : JsValue) : bool :=
  match v with
  | VUndefined | VNull => false
  | VBool b => b
  | VNum n => negb (n =? 0)%Z
  | VStr s => negb (String.eqb s "")
  | VDate _ | VOpaque _ => true
  end.

Definition typeof (v : JsValue) : string :=
  match v with
  | VUndefined => "undefined"
  | VBool _ => "boolean"
  | VNum _ => "number"
  | VStr _ => "string"
  | VNull | VDate _ | VOpaque _ => "object"
  end.

(** [v === "literal"] *)
Definition is_str (v : JsValue) (lit : string) : bool :=
  match v with
  | VStr s => String.eqb s lit
  | _ => false
  end.

(** [a || b] *)
Definition or_else (a b : JsValue) : JsValue := if truthy a then a else b.

(** [a ?? b] *)
Definition nullish (a b : JsValue) : JsValue :=
  match a with
  | VUndefined | VNull => b
  | _ => a
  end.

(** [new Date(v)] *)
Definition new_Date (h : Host) (v : JsValue) : JsValue :=
  VDate
    match v with
    | VStr s => Date_parse h s
    | VNum n => if (Z.abs n <=? 8640000000000000)%Z then Some n else None
    | VDate d => d
    | VBool b => Some (if b then 1 else 0)
    | VNull => Some 0
    | VUndefined => None
    | VOpaque _ => Date_parse h (String_of h v)
    end.

(** [JSON.stringify(body)]: [undefined] for [undefined] *)
Definition JSON_stringify (h : Host) (j : Json) : option string :=
  match j with
  | JPrim VUndefined => None
  | _ => Some (stringify h j)
  end.

(** ** The effects: clock, network, timers, exceptions *)

Record Request : Type := {
  req_url : string;
  req_method : string;
  req_headers : gmap string string;
  req_body : option string
}.

(** What one run has done so far: the clock ([Date.now()]), the requests
    handed to [fetch] and the delays handed to [setTimeout], oldest first. *)
Record State : Type := {
  clock : Z;
  sent : list Request;
  slept : list Z
}.

(** The result of a computation: a value, a thrown error, or [Pending] when
    a loop has used up its fuel and is still running. *)
Inductive Res (A : Type) : Type :=
| Done (a : A)
| Thrown (e : JsError)
| Pending.

Arguments Done {A} a.
Arguments Thrown {A} e.
Arguments Pending {A}.

Definition M (A : Type) : Type := State -> Res A * State.

Definition ret {A} (a : A) : M A := fun s => (Done a, s).

Definition throw {A} (e : JsError) : M A := fun s => (Thrown e, s).

Definition bind {A B} (m : M A) (k : A -> M B) : M B :=
  fun s =>
    match m s with
    | (Done a, s') => k a s'
    | (Thrown e, s') => (Thrown e, s')
    | (Pending, s') => (Pending, s')
    end.

(** [try { m } catch (error) { h error }] *)
Definition try_catch {A} (m : M A) (h : JsError -> M A) : M A :=
  fun s =>
    match m s with
    | (Thrown e, s') => h e s'
    | r => r
    end.

Declare Scope js_scope.
Delimit Scope js_scope with js.
Notation "x <- m ;; k" := (bind m (fun x => k))
  (at level 100, m at next level, right associativity) : js_scope.
Notation "m ;; k" := (bind m (fun _ => k))
  (at level 100, right associativity) : js_scope.
Local Open Scope js_scope.

(** [while (cond) { body }] where the body may [return]: [Some a] is an
    early return of [a], [None] falls through to the next test; the loop
    itself gives [None] when the test fails. *)
Fixpoint while_ {A} (fuel : nat) (cond : M bool) (body : M (option A))
  : M (option A) :=
  match fuel with
  | O => fun s => (Pending, s)
  | S fuel' =>
      c <- cond;;
      if c : bool then
        r <- body;;
        match r with
        | Some a => ret (Some a)
        | None => while_ fuel' cond body
        end
      else ret None
  end.

(** The delay the host gives a timer set with [setTimeout(f, ms)].  A
    delay is a 32-bit signed integer: Node and Bun replace a delay above
    2147483647 by 1 millisecond (a browser wraps it, which also fires the
    timer long before [ms] have passed), and a negative delay fires at
    once. *)
Definition MAX_TIMER_DELAY : Z := 2147483647.

Definition timer_delay (ms : Z) : Z :=
  if (MAX_TIMER_DELAY <? ms)%Z then 1 else Z.max 0 ms.

Section Effects.
Context (env : Env).

(** [Date.now()] *)
Definition Date_now : M Z := fun s => (Done (clock s), s).

(** [await fetch(url, init)]: the request is the next one of the run. *)
Definition fetch (rq : Request) : M Response :=
  fun s =>
    let n := length (sent s) in
    let s' := {| clock := clock s + Z.of_N (net_latency env n);
                 sent := sent s ++ [rq];
                 slept := slept s |} in
    match net_reply env n with
    | Rejects why => (Thrown (new_Error why), s')
    | Responds r => (Done r, s')
    end.

(** [await response.json()] *)
Definition Response_json (r : Response) : M Json :=
  match body r with
  | inr j => ret j
  | inl why => throw (new_Error why)
  end.

(** [await new Promise((resolve) => setTimeout(resolve, ms))] *)
Definition sleep (ms : Z) : M unit :=
  fun s =>
    (Done tt,
     {| clock := clock s + timer_delay ms
                 + Z.of_N (timer_lag env (length (slept s)));
        sent := sent s;
        slept := slept s ++ [ms] |}).
End Effects.

(** Reading a property off a decoded value: [null] and [undefined] throw a
    TypeError, any other non-object has none of the properties read here. *)
Definition get_prop (j : Json) (k : string) : M JsValue :=
  match j with
  | JObject o => ret (prop o k)
  | JPrim VUndefined | JPrim VNull =>
      throw (new_Error ("Cannot read properties of null or undefined (reading '"
                        +:+ k +:+ "')"))
  | JPrim _ => ret VUndefined
  end.

(** A method written for an object, applied to what the transport decoded:
    its first statement reads a property, and it assigns only to a
    property that holds a string. *)
Definition on_object (first : string) (f : Obj -> Obj) (j : Json) : M Json :=
  match j with
  | JObject o => ret (JObject (f o))
  | _ => get_prop j first;; ret j
  end.

(** ** The transport: lib/http-client *)

Record HttpClientConfig : Type := {
  cfg_apiKey : string;
  cfg_baseUrl : option string
}.

(** [errorBody?.k] *)
Definition opt_chain (j : Json) (k : string) : JsValue :=
  match j with
  | JObject o => prop o k
  | JPrim _ => VUndefined
  end.

Module HttpClient.

Record t : Type := { apiKey : string; baseUrl : string }.

Definition new (config : HttpClientConfig) : t :=
  {| apiKey := cfg_apiKey config;
     baseUrl :=
       match cfg_baseUrl config with
       | Some u => if String.eqb u "" then "https://api.stack0.dev/v1" else u
       | None => "https://api.stack0.dev/v1"
       end |}.

Section Methods.
Context (h : Host) (env : Env) (this : t).

Definition getHeaders (includeContentType : option bool)
  : gmap string string :=
  let includeContentType := default true includeContentType in
  let headers : gmap string string :=
    {[ "Authorization" := "Bearer " +:+ apiKey this ]} in
  let headers :=
    if includeContentType
    then <["Content-Type" := "application/json"]> headers
    else headers in
  headers.

Definition handleErrorResponse {A} (response : Response) : M A :=
  errorBody <-
    try_catch (Response_json response)
      (fun _ => ret (JObject {[ "message" := VStr (statusText response) ]}));;
  let error :=
    new_Error
      (ToString h
         (or_else (opt_chain errorBody "message")
            (VStr ("HTTP " +:+ pretty (status response))))) in
  let error := err_set "statusCode" (PVal (VNum (status response))) error in
  let error :=
    err_set "code" (PVal (nullish (opt_chain errorBody "code") (VStr "")))
      error in
  let error := err_set "response" (PData errorBody) error in
  throw error.

Definition createError (message : string) (cause : option JsError)
  : JsError :=
  let error := new_Error message in
  err_set "cause"
    match cause with
    | Some c => PErr c
    | None => PVal VUndefined
    end error.

Definition request (method path : string) (body : Json) : M Json :=
  let url := baseUrl this +:+ path in
  let bodyString :=
    match body with
    | JPrim VUndefined => None
    | _ => JSON_stringify h body
    end in
  let hasBody := match bodyString with Some _ => true | None => false end in
  try_catch
    (response <-
       fetch env
         {| req_url := url;
            req_method := method;
            req_headers := getHeaders (Some hasBody);
            req_body := if hasBody then bodyString else None |};;
     (if negb (ok response)
      then handleErrorResponse response
      else ret tt);;
     data <- Response_json response;;
     ret data)
    (fun error =>
       if err_has "statusCode" error
       then throw error (* Re-throw our custom errors *)
       else throw (createError "Network error" (Some error))).

Definition get (path : string) : M Json :=
  request "GET" path (JPrim VUndefined).

Definition post (path : string) (body : Json) : M Json :=
  request "POST" path body.

Definition put (path : string) (body : Json) : M Json :=
  request "PUT" path body.

Definition delete (path : string) : M Json :=
  request "DELETE" path (JPrim VUndefined).

Definition deleteWithBody (path : string) (body : Json) : M Json :=
  request "DELETE" path body.

Definition patch (path : string) (body : Json) : M Json :=
  request "PATCH" path body.
End Methods.

End HttpClient.

(** ** Query strings: [URLSearchParams] *)

Abbreviation URLSearchParams := (list (string * string)).

(** [params.set(k, v)]: replaces the value of an existing name, appends a
    new one. *)
Fixpoint params_set (k v : string) (params : URLSearchParams)
  : URLSearchParams :=
  match params with
  | [] => [(k, v)]
  | (k', v') :: rest =>
      if String.eqb k' k then (k, v) :: rest
      else (k', v') :: params_set k v rest
  end.

(** [params.toString()] *)
Definition params_toString (h : Host) (params : URLSearchParams) : string :=
  String.concat "&"
    (map (fun kv => urlencode h (fst kv) +:+ "=" +:+ urlencode h (snd kv))
       params).

(** [if (request.k) params.set(k, request.k)] *)
Definition set_if_present (h : Host) (request : Obj) (k : string)
    (params : URLSearchParams) : URLSearchParams :=
  if truthy (prop request k)
  then params_set k (ToString h (prop request k)) params
  else params.

(** [`${query ? `?${query}` : ""}`] *)
Definition query_suffix (query : string) : string :=
  if truthy (VStr query) then "?" +:+ query else "".

(** The options of a wait-for-completion call; [None] is an omitted (or
    [undefined]) option, for which the destructuring default applies. *)
Record WaitOptions : Type := {
  pollInterval : option Z;
  timeout : option Z
}.

(** ** The clients *)

(** [if (typeof o.k === "string") o.k = new Date(o.k)] *)
Definition upgrade (h : Host) (k : string) (o : Obj) : Obj :=
  if String.eqb (typeof (prop o k)) "string"
  then <[k := new_Date h (prop o k)]> o
  else o.

(** [if (o.k && typeof o.k === "string") o.k = new Date(o.k)] *)
Definition upgrade_present (h : Host) (k : string) (o : Obj) : Obj :=
  if truthy (prop o k) && String.eqb (typeof (prop o k)) "string"
  then <[k := new_Date h (prop o k)]> o
  else o.

(** [{ id, environment: request.environment, <scope>: request.<scope> }] *)
Definition by_id (id : JsValue) (request : Obj) (scope : string) : Obj :=
  {[ "id" := id;
     "environment" := prop request "environment";
     scope := prop request scope ]}.

Module Workflows.
Section Methods.
Context (h : Host) (env : Env) (http : HttpClient.t).

Definition convertDates (workflow : Obj) : Obj :=
  let workflow := upgrade h "createdAt" workflow in
  let workflow := upgrade h "updatedAt" workflow in
  workflow.

Definition convertRunDates (run : Obj) : Obj :=
  let run := upgrade h "createdAt" run in
  let run := upgrade_present h "startedAt" run in
  let run := upgrade_present h "completedAt" run in
  run.

Definition run (request : Obj) : M Json :=
  HttpClient.post h env http "/workflows/workflows/run" (JObject request).

Definition getRun (request : Obj) : M Json :=
  let params : URLSearchParams := [] in
  let params := set_if_present h request "environment" params in
  let params := set_if_present h request "projectSlug" params in
  let query := params_toString h params in
  response <-
    HttpClient.get h env http
      ("/workflows/workflows/runs/" +:+ ToString h (prop request "id")
       +:+ query_suffix query);;
  on_object "createdAt" convertRunDates response.

Definition runAndWait (fuel : nat) (request : Obj) (options : WaitOptions)
  : M Json :=
  let pollInterval := default 2000 (pollInterval options) in
  let timeout := default 600000 (timeout options) in
  startTime <- Date_now;;
  created <- run request;;
  id <- get_prop created "id";;
  found <-
    while_ fuel
      (now <- Date_now;; ret (now - startTime <? timeout)%Z)
      (run <- getRun (by_id id request "projectSlug");;
       status <- get_prop run "status";;
       if is_str status "completed" || is_str status "failed"
          || is_str status "cancelled"
       then
         if is_str status "failed"
         then
           error <- get_prop run "error";;
           throw (new_Error
                    (ToString h
                       (or_else error (VStr "Workflow execution failed"))))
         else ret (Some run)
       else
         sleep env pollInterval;;
         ret None);;
  match found with
  | Some run => ret run
  | None => throw (new_Error "Workflow execution timed out")
  end.

Definition create (request : Obj) : M Json :=
  HttpClient.post h env http "/workflows/workflows" (JObject request).

Definition get (request : Obj) : M Json :=
  let params : URLSearchParams := [] in
  let params := set_if_present h request "slug" params in
  let params := set_if_present h request "environment" params in
  let params := set_if_present h request "projectSlug" params in
  let path :=
    if truthy (prop request "id")
    then "/workflows/workflows/" +:+ ToString h (prop request "id")
    else "/workflows/workflows?" +:+ params_toString h params in
  response <- HttpClient.get h env http path;;
  on_object "createdAt" convertDates response.

(** [const { id, ...data } = request]: [data] has every property of the
    request but [id]. *)
Definition update (request : Obj) : M Json :=
  let id := prop request "id" in
  let data := base.delete "id" request in
  HttpClient.post h env http ("/workflows/workflows/" +:+ ToString h id)
    (JObject data).

Definition cancelRun (request : Obj) : M Json :=
  HttpClient.post h env http
    ("/workflows/workflows/runs/" +:+ ToString h (prop request "id")
     +:+ "/cancel")
    (JObject ∅).

Definition delete (request : Obj) : M Json :=
  HttpClient.deleteWithBody h env http
    ("/workflows/workflows/" +:+ ToString h (prop request "id"))
    (JObject request).

End Methods.
End Workflows.

Module Webdata.
Section Methods.
Context (h : Host) (env : Env) (http : HttpClient.t).

Definition convertScreenshotDates (screenshot : Obj) : Obj :=
  let screenshot := upgrade h "createdAt" screenshot in
  let screenshot := upgrade_present h "completedAt" screenshot in
  screenshot.

Definition convertExtractionDates (extraction : Obj) : Obj :=
  let extraction := upgrade h "createdAt" extraction in
  let extraction := upgrade_present h "completedAt" extraction in
  extraction.

Definition convertScheduleDates (schedule : Obj) : Obj :=
  let schedule := upgrade h "createdAt" schedule in
  let schedule := upgrade h "updatedAt" schedule in
  let schedule := upgrade_present h "lastRunAt" schedule in
  let schedule := upgrade_present h "nextRunAt" schedule in
  schedule.

Definition convertUsageDates (usage : Obj) : Obj :=
  let usage := upgrade h "periodStart" usage in
  let usage := upgrade h "periodEnd" usage in
  usage.

Definition convertBatchJobDates (job : Obj) : Obj :=
  let job := upgrade h "createdAt" job in
  let job := upgrade_present h "startedAt" job in
  let job := upgrade_present h "completedAt" job in
  job.

Definition screenshot (request : Obj) : M Json :=
  HttpClient.post h env http "/webdata/screenshots" (JObject request).

Definition getScreenshot (request : Obj) : M Json :=
  let params : URLSearchParams := [] in
  let params := set_if_present h request "environment" params in
  let params := set_if_present h request "projectId" params in
  let query := params_toString h params in
  let path :=
    "/webdata/screenshots/" +:+ ToString h (prop request "id")
    +:+ query_suffix query in
  response <- HttpClient.get h env http path;;
  on_object "createdAt" convertScreenshotDates response.

Definition screenshotAndWait (fuel : nat) (request : Obj)
    (options : WaitOptions) : M Json :=
  let pollInterval := default 1000 (pollInterval options) in
  let timeout := default 60000 (timeout options) in
  startTime <- Date_now;;
  created <- screenshot request;;
  id <- get_prop created "id";;
  found <-
    while_ fuel
      (now <- Date_now;; ret (now - startTime <? timeout)%Z)
      (screenshot <- getScreenshot (by_id id request "projectId");;
       status <- get_prop screenshot "status";;
       if is_str status "completed" || is_str status "failed"
       then
         if is_str status "failed"
         then
           error <- get_prop screenshot "error";;
           throw (new_Error
                    (ToString h (or_else error (VStr "Screenshot failed"))))
         else ret (Some screenshot)
       else
         sleep env pollInterval;;
         ret None);;
  match found with
  | Some screenshot => ret screenshot
  | None => throw (new_Error "Screenshot timed out")
  end.

Definition extract (request : Obj) : M Json :=
  HttpClient.post h env http "/webdata/extractions" (JObject request).

Definition getExtraction (request : Obj) : M Json :=
  let params : URLSearchParams := [] in
  let params := set_if_present h request "environment" params in
  let params := set_if_present h request "projectId" params in
  let query := params_toString h params in
  let path :=
    "/webdata/extractions/" +:+ ToString h (prop request "id")
    +:+ query_suffix query in
  response <- HttpClient.get h env http path;;
  on_object "createdAt" convertExtractionDates response.

Definition extractAndWait (fuel : nat) (request : Obj)
    (options : WaitOptions) : M Json :=
  let pollInterval := default 1000 (pollInterval options) in
  let timeout := default 60000 (timeout options) in
  startTime <- Date_now;;
  created <- extract request;;
  id <- get_prop created "id";;
  found <-
    while_ fuel
      (now <- Date_now;; ret (now - startTime <? timeout)%Z)
      (extraction <- getExtraction (by_id id request "projectId");;
       status <- get_prop extraction "status";;
       if is_str status "completed" || is_str status "failed"
       then
         if is_str status "failed"
         then
           error <- get_prop extraction "error";;
           throw (new_Error
                    (ToString h (or_else error (VStr "Extraction failed"))))
         else ret (Some extraction)
       else
         sleep env pollInterval;;
         ret None);;
  match found with
  | Some extraction => ret extraction
  | None => throw (new_Error "Extraction timed out")
  end.

Definition batchScreenshots (request : Obj) : M Json :=
  HttpClient.post h env http "/webdata/batch/screenshots" (JObject request).

Definition batchExtractions (request : Obj) : M Json :=
  HttpClient.post h env http "/webdata/batch/extractions" (JObject request).

Definition getBatchJob (request : Obj) : M Json :=
  let params : URLSearchParams := [] in
  let params := set_if_present h request "environment" params in
  let params := set_if_present h request "projectId" params in
  let query := params_toString h params in
  let path :=
    "/webdata/batch/" +:+ ToString h (prop request "id")
    +:+ query_suffix query in
  response <- HttpClient.get h env http path;;
  on_object "createdAt" convertBatchJobDates response.

Definition batchScreenshotsAndWait (fuel : nat) (request : Obj)
    (options : WaitOptions) : M Json :=
  let pollInterval := default 2000 (pollInterval options) in
  let timeout := default 300000 (timeout options) in
  startTime <- Date_now;;
  created <- batchScreenshots request;;
  id <- get_prop created "id";;
  found <-
    while_ fuel
      (now <- Date_now;; ret (now - startTime <? timeout)%Z)
      (job <- getBatchJob (by_id id request "projectId");;
       status <- get_prop job "status";;
       if is_str status "completed" || is_str status "failed"
          || is_str status "cancelled"
       then ret (Some job)
       else
         sleep env pollInterval;;
         ret None);;
  match found with
  | Some job => ret job
  | None => throw (new_Error "Batch job timed out")
  end.

Definition batchExtractionsAndWait (fuel : nat) (request : Obj)
    (options : WaitOptions) : M Json :=
  let pollInterval := default 2000 (pollInterval options) in
  let timeout := default 300000 (timeout options) in
  startTime <- Date_now;;
  created <- batchExtractions request;;
  id <- get_prop created "id";;
  found <-
    while_ fuel
      (now <- Date_now;; ret (now - startTime <? timeout)%Z)
      (job <- getBatchJob (by_id id request "projectId");;
       status <- get_prop job "status";;
       if is_str status "completed" || is_str status "failed"
          || is_str status "cancelled"
       then ret (Some job)
       else
         sleep env pollInterval;;
         ret None);;
  match found with
  | Some job => ret job
  | None => throw (new_Error "Batch job timed out")
  end.

Definition createSchedule (request : Obj) : M Json :=
  HttpClient.post h env http "/webdata/schedules" (JObject request).

(** [const { id, environment, projectId, ...data } = request] *)
Definition updateSchedule (request : Obj) : M Json :=
  let id := prop request "id" in
  let environment := prop request "environment" in
  let projectId := prop request "projectId" in
  let data :=
    base.delete "id"
      (base.delete "environment" (base.delete "projectId" request)) in
  let params : URLSearchParams := [] in
  let params :=
    if truthy environment
    then params_set "environment" (ToString h environment) params
    else params in
  let params :=
    if truthy projectId
    then params_set "projectId" (ToString h projectId) params
    else params in
  let query := params_toString h params in
  HttpClient.patch h env http
    ("/webdata/schedules/" +:+ ToString h id +:+ query_suffix query)
    (JObject data).

End Methods.
End Webdata.

Module Screenshots.
Section Methods.
Context (h : Host) (env : Env) (http : HttpClient.t).

Definition convertDates (screenshot : Obj) : Obj :=
  let screenshot := upgrade h "createdAt" screenshot in
  let screenshot := upgrade_present h "completedAt" screenshot in
  screenshot.

Definition convertBatchJobDates (job : Obj) : Obj :=
  let job := upgrade h "createdAt" job in
  let job := upgrade_present h "startedAt" job in
  let job := upgrade_present h "completedAt" job in
  job.

Definition convertScheduleDates (schedule : Obj) : Obj :=
  let schedule := upgrade h "createdAt" schedule in
  let schedule := upgrade h "updatedAt" schedule in
  let schedule := upgrade_present h "lastRunAt" schedule in
  let schedule := upgrade_present h "nextRunAt" schedule in
  schedule.

Definition capture (request : Obj) : M Json :=
  HttpClient.post h env http "/webdata/screenshots" (JObject request).

Definition get (request : Obj) : M Json :=
  let params : URLSearchParams := [] in
  let params := set_if_present h request "environment" params in
  let params := set_if_present h request "projectId" params in
  let query := params_toString h params in
  let path :=
    "/webdata/screenshots/" +:+ ToString h (prop request "id")
    +:+ query_suffix query in
  response <- HttpClient.get h env http path;;
  on_object "createdAt" convertDates response.

Definition captureAndWait (fuel : nat) (request : Obj)
    (options : WaitOptions) : M Json :=
  let pollInterval := default 1000 (pollInterval options) in
  let timeout := default 60000 (timeout options) in
  startTime <- Date_now;;
  created <- capture request;;
  id <- get_prop created "id";;
  found <-
    while_ fuel
      (now <- Date_now;; ret (now - startTime <? timeout)%Z)
      (screenshot <- get (by_id id request "projectId");;
       status <- get_prop screenshot "status";;
       if is_str status "completed" || is_str status "failed"
       then
         if is_str status "failed"
         then
           error <- get_prop screenshot "error";;
           throw (new_Error
                    (ToString h (or_else error (VStr "Screenshot failed"))))
         else ret (Some screenshot)
       else
         sleep env pollInterval;;
         ret None);;
  match found with
  | Some screenshot => ret screenshot
  | None => throw (new_Error "Screenshot timed out")
  end.

Definition batch (request : Obj) : M Json :=
  HttpClient.post h env http "/webdata/batch/screenshots" (JObject request).

Definition getBatchJob (request : Obj) : M Json :=
  let params : URLSearchParams := [] in
  let params := set_if_present h request "environment" params in
  let params := set_if_present h request "projectId" params in
  let query := params_toString h params in
  let path :=
    "/webdata/batch/" +:+ ToString h (prop request "id")
    +:+ query_suffix query in
  response <- HttpClient.get h env http path;;
  on_object "createdAt" convertBatchJobDates response.

Definition batchAndWait (fuel : nat) (request : Obj)
    (options : WaitOptions) : M Json :=
  let pollInterval := default 2000 (pollInterval options) in
  let timeout := default 300000 (timeout options) in
  startTime <- Date_now;;
  created <- batch request;;
  id <- get_prop created "id";;
  found <-
    while_ fuel
      (now <- Date_now;; ret (now - startTime <? timeout)%Z)
      (job <- getBatchJob (by_id id request "projectId");;
       status <- get_prop job "status";;
       if is_str status "completed" || is_str status "failed"
          || is_str status "cancelled"
       then ret (Some job)
       else
         sleep env pollInterval;;
         ret None);;
  match found with
  | Some job => ret job
  | None => throw (new_Error "Batch job timed out")
  end.

Definition createSchedule (request : Obj) : M Json :=
  HttpClient.post h env http "/webdata/schedules" (JObject (<["type" := VStr "screenshot"]> request)).

(** [const { id, environment, projectId, ...data } = request] *)
Definition updateSchedule (request : Obj) : M Json :=
  let id := prop request "id" in
  let environment := prop request "environment" in
  let projectId := prop request "projectId" in
  let data :=
    base.delete "id"
      (base.delete "environment" (base.delete "projectId" request)) in
  let params : URLSearchParams := [] in
  let params :=
    if truthy environment
    then params_set "environment" (ToString h environment) params
    else params in
  let params :=
    if truthy projectId
    then params_set "projectId" (ToString h projectId) params
    else params in
  let query := params_toString h params in
  HttpClient.post h env http
    ("/webdata/schedules/" +:+ ToString h id +:+ query_suffix query)
    (JObject data).

End Methods.
End Screenshots.

Module Extraction.
Section Methods.
Context (h : Host) (env : Env) (http : HttpClient.t).

Definition convertDates (extraction : Obj) : Obj :=
  let extraction := upgrade h "createdAt" extraction in
  let extraction := upgrade_present h "completedAt" extraction in
  extraction.

Definition convertBatchJobDates (job : Obj) : Obj :=
  let job := upgrade h "createdAt" job in
  let job := upgrade_present h "startedAt" job in
  let job := upgrade_present h "completedAt" job in
  job.

Definition convertScheduleDates (schedule : Obj) : Obj :=
  let schedule := upgrade h "createdAt" schedule in
  let schedule := upgrade h "updatedAt" schedule in
  let schedule := upgrade_present h "lastRunAt" schedule in
  let schedule := upgrade_present h "nextRunAt" schedule in
  schedule.

Definition convertUsageDates (usage : Obj) : Obj :=
  let usage := upgrade h "periodStart" usage in
  let usage := upgrade h "periodEnd" usage in
  usage.

Definition extract (request : Obj) : M Json :=
  HttpClient.post h env http "/webdata/extractions" (JObject request).

Definition get (request : Obj) : M Json :=
  let params : URLSearchParams := [] in
  let params := set_if_present h request "environment" params in
  let params := set_if_present h request "projectId" params in
  let query := params_toString h params in
  let path :=
    "/webdata/extractions/" +:+ ToString h (prop request "id")
    +:+ query_suffix query in
  response <- HttpClient.get h env http path;;
  on_object "createdAt" convertDates response.

Definition extractAndWait (fuel : nat) (request : Obj)
    (options : WaitOptions) : M Json :=
  let pollInterval := default 1000 (pollInterval options) in
  let timeout := default 60000 (timeout options) in
  startTime <- Date_now;;
  created <- extract request;;
  id <- get_prop created "id";;
  found <-
    while_ fuel
      (now <- Date_now;; ret (now - startTime <? timeout)%Z)
      (extraction <- get (by_id id request "projectId");;
       status <- get_prop extraction "status";;
       if is_str status "completed" || is_str status "failed"
       then
         if is_str status "failed"
         then
           error <- get_prop extraction "error";;
           throw (new_Error
                    (ToString h (or_else error (VStr "Extraction failed"))))
         else ret (Some extraction)
       else
         sleep env pollInterval;;
         ret None);;
  match found with
  | Some extraction => ret extraction
  | None => throw (new_Error "Extraction timed out")
  end.

Definition batch (request : Obj) : M Json :=
  HttpClient.post h env http "/webdata/batch/extractions" (JObject request).

Definition getBatchJob (request : Obj) : M Json :=
  let params : URLSearchParams := [] in
  let params := set_if_present h request "environment" params in
  let params := set_if_present h request "projectId" params in
  let query := params_toString h params in
  let path :=
    "/webdata/batch/" +:+ ToString h (prop request "id")
    +:+ query_suffix query in
  response <- HttpClient.get h env http path;;
  on_object "createdAt" convertBatchJobDates response.

Definition batchAndWait (fuel : nat) (request : Obj)
    (options : WaitOptions) : M Json :=
  let pollInterval := default 2000 (pollInterval options) in
  let timeout := default 300000 (timeout options) in
  startTime <- Date_now;;
  created <- batch request;;
  id <- get_prop created "id";;
  found <-
    while_ fuel
      (now <- Date_now;; ret (now - startTime <? timeout)%Z)
      (job <- getBatchJob (by_id id request "projectId");;
       status <- get_prop job "status";;
       if is_str status "completed" || is_str status "failed"
          || is_str status "cancelled"
       then ret (Some job)
       else
         sleep env pollInterval;;
         ret None);;
  match found with
  | Some job => ret job
  | None => throw (new_Error "Batch job timed out")
  end.

Definition createSchedule (request : Obj) : M Json :=
  HttpClient.post h env http "/webdata/schedules" (JObject (<["type" := VStr "extraction"]> request)).

(** [const { id, environment, projectId, ...data } = request] *)
Definition updateSchedule (request : Obj) : M Json :=
  let id := prop request "id" in
  let environment := prop request "environment" in
  let projectId := prop request "projectId" in
  let data :=
    base.delete "id"
      (base.delete "environment" (base.delete "projectId" request)) in
  let params : URLSearchParams := [] in
  let params :=
    if truthy environment
    then params_set "environment" (ToString h environment) params
    else params in
  let params :=
    if truthy projectId
    then params_set "projectId" (ToString h projectId) params
    else params in
  let query := params_toString h params in
  HttpClient.post h env http
    ("/webdata/schedules/" +:+ ToString h id +:+ query_suffix query)
    (JObject data).

End Methods.
End Extraction.

(** ** The CDN client: transform URLs (no request is made) *)

(** [s.endsWith("/")] and [s.slice(0, -1)] *)
Fixpoint endsWith_slash (s : string) : bool :=
  match s with
  | EmptyString => false
  | String c EmptyString => String.eqb (String c EmptyString) "/"
  | String _ rest => endsWith_slash rest
  end.

Fixpoint slice_but_last (s : string) : string :=
  match s with
  | EmptyString => EmptyString
  | String _ EmptyString => EmptyString
  | String c rest => String c (slice_but_last rest)
  end.

(** What [new URL(s)] exposes of a URL it accepts. *)
Record URL : Type := {
  protocol : string;
  host : string;
  pathname : string
}.

Module CDN.

Record TransformOptions : Type := {
  width : option Z;
  height : option Z;
  fit : option string;
  format : option string;
  quality : option Z;
  crop : option string;
  cropX : option Z;
  cropY : option Z;
  cropWidth : option Z;
  cropHeight : option Z;
  blur : option Z;
  sharpen : option Z;
  brightness : option Z;
  saturation : option Z;
  grayscale : option bool;
  rotate : option Z;
  flip : option bool;
  flop : option bool
}.

(** Allowed widths that match the CloudFront url-rewriter configuration *)
Definition ALLOWED_WIDTHS : list Z :=
  [256; 384; 640; 750; 828; 1080; 1200; 1920; 2048; 3840].

(** [Number.MAX_SAFE_INTEGER], 2^53 - 1: up to it every integer is a
    double. *)
Definition MAX_SAFE_INTEGER : Z := 9007199254740991.

(** The numbers of the code are IEEE doubles.  An operation on doubles
    gives the exact result rounded to 53 significant bits, to the nearest
    and on a tie to the even one: for an integer result (below 2^1024 in
    absolute value) that is [round_double]. *)
Definition round_double (x : Z) : Z :=
  let a := Z.abs x in
  if (a <=? MAX_SAFE_INTEGER)%Z then x
  else
    let ulp := 2 ^ (Z.log2 a - 52) in
    let q := a / ulp in
    let r := a mod ulp in
    let q' :=
      if (2 * r <? ulp)%Z then q
      else if (ulp <? 2 * r)%Z then q + 1
      else if Z.even q then q else q + 1 in
    Z.sgn x * (q' * ulp).

(** [ALLOWED_WIDTHS.reduce(f)] has no initial value: the first width
    starts the accumulation and the others are folded in, left to right.
    [width] is an integer that is a double, and [curr - width] is a
    subtraction of doubles. *)
Definition getNearestWidth (width : Z) : Z :=
  fold_left
    (fun prev curr =>
       if (Z.abs (round_double (curr - width))
           <? Z.abs (round_double (prev - width)))%Z
       then curr else prev)
    (tl ALLOWED_WIDTHS) (hd 0 ALLOWED_WIDTHS).

(** [if (options.k) params.set(name, options.k)] on a string *)
Definition set_text (name : string) (v : option string)
    (params : URLSearchParams) : URLSearchParams :=
  match v with
  | Some s => if truthy (VStr s) then params_set name s params else params
  | None => params
  end.

(** [if (options.k !== undefined) params.set(name, options.k.toString())] *)
Definition set_number (name : string) (v : option Z)
    (params : URLSearchParams) : URLSearchParams :=
  match v with
  | Some n => params_set name (pretty n) params
  | None => params
  end.

(** [if (options.k) params.set(name, text)] on a boolean *)
Definition set_flag (name text : string) (v : option bool)
    (params : URLSearchParams) : URLSearchParams :=
  match v with
  | Some true => params_set name text params
  | _ => params
  end.

(** The parameters [buildTransformQuery] sets, in its order. *)
Definition transformParams (options : TransformOptions) : URLSearchParams :=
  let params : URLSearchParams := [] in
  let params := set_text "f" (format options) params in
  let params := set_number "q" (quality options) params in
  let params :=
    match width options with
    | Some w =>
        (* Snap to nearest allowed width for better caching *)
        let width := getNearestWidth w in
        params_set "w" (pretty width) params
    | None => params
    end in
  let params := set_number "h" (height options) params in
  let params := set_text "fit" (fit options) params in
  let params := set_text "crop" (crop options) params in
  let params := set_number "crop-x" (cropX options) params in
  let params := set_number "crop-y" (cropY options) params in
  let params := set_number "crop-w" (cropWidth options) params in
  let params := set_number "crop-h" (cropHeight options) params in
  let params := set_number "blur" (blur options) params in
  let params := set_number "sharpen" (sharpen options) params in
  let params := set_number "brightness" (brightness options) params in
  let params := set_number "saturation" (saturation options) params in
  let params := set_flag "grayscale" "true" (grayscale options) params in
  let params := set_number "rotate" (rotate options) params in
  let params := set_flag "flip" "y" (flip options) params in
  let params := set_flag "flop" "x" (flop options) params in
  params.

Definition buildTransformQuery (h : Host) (options : TransformOptions)
  : string :=
  params_toString h (transformParams options).

Section Methods.
Context (h : Host).
(** [new URL(s)]: [None] when the host rejects [s] with a TypeError. *)
Context (new_URL : string -> option URL).
(** [this.cdnUrl] *)
Context (cdnUrl : option string).

Definition getTransformUrl (assetUrlOrS3Key : string)
    (options : TransformOptions) : Res string :=
  let baseUrl : Res string :=
    if String.prefix "http://" assetUrlOrS3Key
       || String.prefix "https://" assetUrlOrS3Key
    then
      (* It's already a full URL - extract base and path *)
      match new_URL assetUrlOrS3Key with
      | Some url => Done (protocol url +:+ "//" +:+ host url +:+ pathname url)
      | None => Thrown (new_Error "Invalid URL")
      end
    else
      match cdnUrl with
      | Some cdn =>
          if truthy (VStr cdn)
          then
            (* It's an s3Key, use configured CDN URL *)
            let cdnBase :=
              if endsWith_slash cdn then slice_but_last cdn else cdn in
            Done (cdnBase +:+ "/" +:+ assetUrlOrS3Key)
          else Thrown (new_Error "getTransformUrl requires either a full URL or cdnUrl to be configured in Stack0 options")
      | None => Thrown (new_Error "getTransformUrl requires either a full URL or cdnUrl to be configured in Stack0 options")
      end in
  match baseUrl with
  | Done baseUrl =>
      let params := buildTransformQuery h options in
      if negb (truthy (VStr params))
      then Done baseUrl
      else Done (baseUrl +:+ "?" +:+ params)
  | failed => failed
  end.
End Methods.

End CDN.

(** ** The wait-for-completion operations, and their common shape *)

Inductive WaitOp : Type :=
| Workflows_runAndWait
| Webdata_screenshotAndWait
| Webdata_extractAndWait
| Screenshots_captureAndWait
| Extraction_extractAndWait
| Webdata_batchScreenshotsAndWait
| Webdata_batchExtractionsAndWait
| Screenshots_batchAndWait
| Extraction_batchAndWait.

Definition call (op : WaitOp) (h : Host) (env : Env) (http : HttpClient.t)
  : nat -> Obj -> WaitOptions -> M Json :=
  match op with
  | Workflows_runAndWait => Workflows.runAndWait h env http
  | Webdata_screenshotAndWait => Webdata.screenshotAndWait h env http
  | Webdata_extractAndWait => Webdata.extractAndWait h env http
  | Screenshots_captureAndWait => Screenshots.captureAndWait h env http
  | Extraction_extractAndWait => Extraction.extractAndWait h env http
  | Webdata_batchScreenshotsAndWait => Webdata.batchScreenshotsAndWait h env http
  | Webdata_batchExtractionsAndWait => Webdata.batchExtractionsAndWait h env http
  | Screenshots_batchAndWait => Screenshots.batchAndWait h env http
  | Extraction_batchAndWait => Extraction.batchAndWait h env http
  end.

(** The submit call of each operation. *)
Definition submit (op : WaitOp) (h : Host) (env : Env) (http : HttpClient.t)
  : Obj -> M Json :=
  match op with
  | Workflows_runAndWait => Workflows.run h env http
  | Webdata_screenshotAndWait => Webdata.screenshot h env http
  | Webdata_extractAndWait => Webdata.extract h env http
  | Screenshots_captureAndWait => Screenshots.capture h env http
  | Extraction_extractAndWait => Extraction.extract h env http
  | Webdata_batchScreenshotsAndWait => Webdata.batchScreenshots h env http
  | Webdata_batchExtractionsAndWait => Webdata.batchExtractions h env http
  | Screenshots_batchAndWait => Screenshots.batch h env http
  | Extraction_batchAndWait => Extraction.batch h env http
  end.

(** The batch operations return a failed job; the others throw on one. *)
Definition is_batch (op : WaitOp) : bool :=
  match op with
  | Webdata_batchScreenshotsAndWait | Webdata_batchExtractionsAndWait
  | Screenshots_batchAndWait | Extraction_batchAndWait => true
  | _ => false
  end.

(** What varies between the nine loops: the two endpoints, the second
    query parameter, the hydration, the terminal test, the message thrown
    for a failed snapshot (if the operation throws on one), the timeout
    message and the default policy. *)
Record WaitShape : Type := {
  create_path : string;
  get_prefix : string;
  scope_key : string;
  hydrate : Host -> Obj -> Obj;
  is_terminal : JsValue -> bool;
  failure_message : option string;
  timeout_message : string;
  default_interval : Z;
  default_timeout : Z
}.

Definition single_status (status : JsValue) : bool :=
  is_str status "completed" || is_str status "failed".

Definition job_status (status : JsValue) : bool :=
  is_str status "completed" || is_str status "failed"
  || is_str status "cancelled".

Definition shape (op : WaitOp) : WaitShape :=
  match op with
  | Workflows_runAndWait =>
      {| create_path := "/workflows/workflows/run";
         get_prefix := "/workflows/workflows/runs/";
         scope_key := "projectSlug";
         hydrate := Workflows.convertRunDates;
         is_terminal := job_status;
         failure_message := Some "Workflow execution failed";
         timeout_message := "Workflow execution timed out";
         default_interval := 2000;
         default_timeout := 600000 |}
  | Webdata_screenshotAndWait =>
      {| create_path := "/webdata/screenshots";
         get_prefix := "/webdata/screenshots/";
         scope_key := "projectId";
         hydrate := Webdata.convertScreenshotDates;
         is_terminal := single_status;
         failure_message := Some "Screenshot failed";
         timeout_message := "Screenshot timed out";
         default_interval := 1000;
         default_timeout := 60000 |}
  | Webdata_extractAndWait =>
      {| create_path := "/webdata/extractions";
         get_prefix := "/webdata/extractions/";
         scope_key := "projectId";
         hydrate := Webdata.convertExtractionDates;
         is_terminal := single_status;
         failure_message := Some "Extraction failed";
         timeout_message := "Extraction timed out";
         default_interval := 1000;
         default_timeout := 60000 |}
  | Screenshots_captureAndWait =>
      {| create_path := "/webdata/screenshots";
         get_prefix := "/webdata/screenshots/";
         scope_key := "projectId";
         hydrate := Screenshots.convertDates;
         is_terminal := single_status;
         failure_message := Some "Screenshot failed";
         timeout_message := "Screenshot timed out";
         default_interval := 1000;
         default_timeout := 60000 |}
  | Extraction_extractAndWait =>
      {| create_path := "/webdata/extractions";
         get_prefix := "/webdata/extractions/";
         scope_key := "projectId";
         hydrate := Extraction.convertDates;
         is_terminal := single_status;
         failure_message := Some "Extraction failed";
         timeout_message := "Extraction timed out";
         default_interval := 1000;
         default_timeout := 60000 |}
  | Webdata_batchScreenshotsAndWait =>
      {| create_path := "/webdata/batch/screenshots";
         get_prefix := "/webdata/batch/";
         scope_key := "projectId";
         hydrate := Webdata.convertBatchJobDates;
         is_terminal := job_status;
         failure_message := None;
         timeout_message := "Batch job timed out";
         default_interval := 2000;
         default_timeout := 300000 |}
  | Webdata_batchExtractionsAndWait =>
      {| create_path := "/webdata/batch/extractions";
         get_prefix := "/webdata/batch/";
         scope_key := "projectId";
         hydrate := Webdata.convertBatchJobDates;
         is_terminal := job_status;
         failure_message := None;
         timeout_message := "Batch job timed out";
         default_interval := 2000;
         default_timeout := 300000 |}
  | Screenshots_batchAndWait =>
      {| create_path := "/webdata/batch/screenshots";
         get_prefix := "/webdata/batch/";
         scope_key := "projectId";
         hydrate := Screenshots.convertBatchJobDates;
         is_terminal := job_status;
         failure_message := None;
         timeout_message := "Batch job timed out";
         default_interval := 2000;
         default_timeout := 300000 |}
  | Extraction_batchAndWait =>
      {| create_path := "/webdata/batch/extractions";
         get_prefix := "/webdata/batch/";
         scope_key := "projectId";
         hydrate := Extraction.convertBatchJobDates;
         is_terminal := job_status;
         failure_message := None;
         timeout_message := "Batch job timed out";
         default_interval := 2000;
         default_timeout := 300000 |}
  end.

(** The poll policy in force: the options, or the operation's defaults. *)
Definition interval_of (op : WaitOp) (options : WaitOptions) : Z :=
  default (default_interval (shape op)) (pollInterval options).

Definition timeout_of (op : WaitOp) (options : WaitOptions) : Z :=
  default (default_timeout (shape op)) (timeout options).

(** The loop written once over a shape; [call_shape] below shows that each
    operation is this loop at its own shape. *)
Section Shape.
Context (h : Host) (env : Env) (http : HttpClient.t) (w : WaitShape).

Definition lookup_path (request : Obj) : string :=
  get_prefix w +:+ ToString h (prop request "id")
  +:+ query_suffix
        (params_toString h
           (set_if_present h request (scope_key w)
              (set_if_present h request "environment" []))).

Definition lookup (request : Obj) : M Json :=
  response <- HttpClient.get h env http (lookup_path request);;
  on_object "createdAt" (hydrate w h) response.

Definition poll (interval : Z) (id : JsValue) (request : Obj)
  : M (option Json) :=
  snapshot <- lookup (by_id id request (scope_key w));;
  status <- get_prop snapshot "status";;
  if is_terminal w status
  then
    match failure_message w with
    | Some fallback =>
        if is_str status "failed"
        then
          error <- get_prop snapshot "error";;
          throw (new_Error (ToString h (or_else error (VStr fallback))))
        else ret (Some snapshot)
    | None => ret (Some snapshot)
    end
  else
    sleep env interval;;
    ret None.

Definition deadline_open (startTime timeout : Z) : M bool :=
  now <- Date_now;; ret (now - startTime <? timeout)%Z.

Definition wait_loop (fuel : nat) (request : Obj) (options : WaitOptions)
  : M Json :=
  let interval := default (default_interval w) (pollInterval options) in
  let timeout := default (default_timeout w) (timeout options) in
  startTime <- Date_now;;
  created <- HttpClient.post h env http (create_path w) (JObject request);;
  id <- get_prop created "id";;
  found <- while_ fuel (deadline_open startTime timeout)
             (poll interval id request);;
  match found with
  | Some snapshot => ret snapshot
  | None => throw (new_Error (timeout_message w))
  end.
End Shape.

(** ** Vocabulary of the statements *)

Definition outcome {A} (m : M A) (s : State) : Res A := fst (m s).
Definition final {A} (m : M A) (s : State) : State := snd (m s).

(** The state after one request has been handed to [fetch], and after one
    timer has fired. *)
Definition after_fetch (env : Env) (rq : Request) (s : State) : State :=
  {| clock := clock s + Z.of_N (net_latency env (length (sent s)));
     sent := sent s ++ [rq];
     slept := slept s |}.

Definition after_sleep (env : Env) (ms : Z) (s : State) : State :=
  {| clock := clock s + timer_delay ms
              + Z.of_N (timer_lag env (length (slept s)));
     sent := sent s;
     slept := slept s ++ [ms] |}.

(** The clock at which the poll after [k] running ones starts, for a loop
    that is at clock [t] with [n] requests sent and [m] timers set: each of
    the [k] rounds before it takes one request and one timer.  It is
    computed from the environment alone. *)
Fixpoint poll_start (env : Env) (interval : Z) (k n m : nat) (t : Z) : Z :=
  match k with
  | O => t
  | S k' =>
      poll_start env interval k' (S n) (S m)
        (t + Z.of_N (net_latency env n) + timer_delay interval
           + Z.of_N (timer_lag env m))
  end.

(** The request [HttpClient.request] hands to [fetch]. *)
Definition wire (h : Host) (http : HttpClient.t) (method path : string)
    (body : Json) : Request :=
  {| req_url := HttpClient.baseUrl http +:+ path;
     req_method := method;
     req_headers :=
       HttpClient.getHeaders http
         (Some match JSON_stringify h body with
               | Some _ => true
               | None => false
               end);
     req_body := JSON_stringify h body |}.

(** The error [handleErrorResponse] builds for a response. *)
Definition errorBody_of (r : Response) : Json :=
  match body r with
  | inr j => j
  | inl _ => JObject {[ "message" := VStr (statusText r) ]}
  end.

Definition classified (h : Host) (r : Response) : JsError :=
  MkError
    (ToString h
       (or_else (opt_chain (errorBody_of r) "message")
          (VStr ("HTTP " +:+ pretty (status r)))))
    [("statusCode", PVal (VNum (status r)));
     ("code", PVal (nullish (opt_chain (errorBody_of r) "code") (VStr "")));
     ("response", PData (errorBody_of r))].

(** The error [request] throws when no decoded body was obtained. *)
Definition network_error (why : string) : JsError :=
  MkError "Network error" [("cause", PErr (new_Error why))].

(** What [request] gives for a reply of the network. *)
Definition delivered (h : Host) (reply : NetReply) : Res Json :=
  match reply with
  | Rejects why => Thrown (network_error why)
  | Responds r =>
      if ok r then
        match body r with
        | inr j => Done j
        | inl why => Thrown (network_error why)
        end
      else Thrown (classified h r)
  end.

(** [get_prop] without the state. *)
Definition read (j : Json) (k : string) : Res JsValue :=
  match j with
  | JObject o => Done (prop o k)
  | JPrim VUndefined | JPrim VNull =>
      Thrown (new_Error ("Cannot read properties of null or undefined (reading '"
                         +:+ k +:+ "')"))
  | JPrim _ => Done VUndefined
  end.

(** What one poll makes of a reply: an error, a snapshot to return, or
    [Done None] when the snapshot is not terminal and the loop sleeps. *)
Definition observe (h : Host) (w : WaitShape) (reply : NetReply)
  : Res (option Json) :=
  match delivered h reply with
  | Done (JObject o) =>
      let snapshot := hydrate w h o in
      if is_terminal w (prop snapshot "status") then
        match failure_message w with
        | Some fallback =>
            if is_str (prop snapshot "status") "failed"
            then Thrown (new_Error
                           (ToString h (or_else (prop snapshot "error")
                                          (VStr fallback))))
            else Done (Some (JObject snapshot))
        | None => Done (Some (JObject snapshot))
        end
      else Done None
  | Done (JPrim v) =>
      match read (JPrim v) "createdAt" with
      | Done _ =>
          if is_terminal w VUndefined
          then Done (Some (JPrim v))
          else Done None
      | Thrown e => Thrown e
      | Pending => Pending
      end
  | Thrown e => Thrown e
  | Pending => Pending
  end.

(** The reply is a 2xx response whose body decodes to the object [o]. *)
Definition answers (reply : NetReply) (o : Obj) : Prop :=
  exists r, reply = Responds r /\ ok r = true /\ body r = inr (JObject o).

(** The reply is a snapshot that is not terminal for the operation. *)
Definition running (op : WaitOp) (reply : NetReply) : Prop :=
  exists o, answers reply o /\ is_terminal (shape op) (prop o "status") = false.

(** How an operation ends on a terminal snapshot [o] as fetched. *)
Definition settle (op : WaitOp) (h : Host) (o : Obj) : Res Json :=
  match failure_message (shape op) with
  | Some fallback =>
      if is_str (prop o "status") "failed"
      then Thrown (new_Error
                     (ToString h (or_else (prop o "error") (VStr fallback))))
      else Done (JObject (hydrate (shape op) h o))
  | None => Done (JObject (hydrate (shape op) h o))
  end.

(** The date-hydration helpers of the four clients. *)
Definition hydrators (h : Host) : list (Obj -> Obj) :=
  [ Workflows.convertDates h; Workflows.convertRunDates h;
    Webdata.convertScreenshotDates h; Webdata.convertExtractionDates h;
    Webdata.convertScheduleDates h; Webdata.convertUsageDates h;
    Webdata.convertBatchJobDates h;
    Screenshots.convertDates h; Screenshots.convertBatchJobDates h;
    Screenshots.convertScheduleDates h;
    Extraction.convertDates h; Extraction.convertBatchJobDates h;
    Extraction.convertScheduleDates h; Extraction.convertUsageDates h ].

(** A hydration as the list of its steps: the property and whether the
    step also tests the property for truthiness. *)
Definition step (h : Host) (ks : string * bool) (o : Obj) : Obj :=
  if snd ks then upgrade_present h (fst ks) o else upgrade h (fst ks) o.

Definition steps (h : Host) (l : list (string * bool)) (o : Obj) : Obj :=
  fold_left (fun o ks => step h ks o) l o.

(** Whether a step finds something to convert. *)
Definition wants (ks : string * bool) (o : Obj) : bool :=
  (if snd ks then truthy (prop o (fst ks)) else true)
  && String.eqb (typeof (prop o (fst ks))) "string".

(** The request of the submit call, and how [wait_loop] ends on what its
    loop found. *)
Definition submit_request (h : Host) (http : HttpClient.t) (w : WaitShape)
    (request : Obj) : Request :=
  wire h http "POST" (create_path w) (JObject request).

Definition finish (w : WaitShape) (found : Res (option Json)) : Res Json :=
  match found with
  | Done (Some snapshot) => Done snapshot
  | Done None => Thrown (new_Error (timeout_message w))
  | Thrown e => Thrown e
  | Pending => Pending
  end.

(** ** A concrete platform, for the examples *)

Definition demo_host : Host :=
  {| Date_parse := fun s => Some (Z.of_nat (String.length s));
     String_of := fun _ => "[object Object]";
     stringify := fun _ => "{}";
     urlencode := fun s => s |}.

Definition demo_http : HttpClient.t :=
  HttpClient.new {| cfg_apiKey := "stack0_test_key"; cfg_baseUrl := None |}.

Definition fresh : State := {| clock := 0; sent := []; slept := [] |}.

Definition reply_json (o : Obj) : NetReply :=
  Responds {| status := 200; statusText := "OK"; body := inr (JObject o) |}.

(** A network that answers the first requests from a script and every
    later one with [rest]; each request takes 1 ms, timers are exact. *)
Definition scripted (script : list NetReply) (rest : NetReply) : Env :=
  {| net_reply := fun n => nth n script rest;
     net_latency := fun _ => 1%N;
     timer_lag := fun _ => 0%N |}.

Definition created_h1 : Obj :=
  {[ "id" := VStr "h1"; "status" := VStr "pending" ]}.

Definition processing : Obj :=
  {[ "status" := VStr "processing"; "createdAt" := VStr "2024-01-01" ]}.

Definition completed_R : Obj :=
  {[ "status" := VStr "completed"; "result" := VStr "R" ]}.

Definition failed_with (error : JsValue) : Obj :=
  {[ "status" := VStr "failed"; "error" := error ]}.

Definition quick : WaitOptions :=
  {| pollInterval := Some 5; timeout := Some 12 |}.

(** The request of one poll, and the loop of [wait_loop] on its own. *)
Definition lookup_request (h : Host) (http : HttpClient.t) (w : WaitShape)
    (id : JsValue) (request : Obj) : Request :=
  wire h http "GET" (lookup_path h w (by_id id request (scope_key w)))
    (JPrim VUndefined).

Definition poll_loop (h : Host) (env : Env) (http : HttpClient.t)
    (w : WaitShape) (interval : Z) (id : JsValue) (request : Obj)
    (startTime timeout : Z) (fuel : nat) : M (option Json) :=
  while_ fuel (deadline_open startTime timeout)
    (poll h env http w interval id request).

(** Networks for the scenarios: every snapshot is processing; the first
    snapshot is completed; the first snapshot is failed with a given error;
    the connection is refused. *)
Definition env_processing : Env :=
  scripted [reply_json created_h1] (reply_json processing).

Definition env_completed : Env :=
  scripted [reply_json created_h1; reply_json completed_R] (Rejects "unused").

Definition env_failed (error : JsValue) : Env :=
  scripted [reply_json created_h1; reply_json (failed_with error)]
    (Rejects "unused").

Definition env_refused : Env := scripted [] (Rejects "ECONNREFUSED").

(** An HTTP/2 response has an empty status text. *)
Definition unavailable : Response :=
  {| status := 503; statusText := "";
     body := inl "Unexpected token < in JSON" |}.

Definition bad_request : Response :=
  {| status := 400; statusText := "Bad Request";
     body := inr (JObject {[ "message" := VStr "title is required" ]}) |}.

Definition env_reply (r : Response) : Env :=
  scripted [Responds r] (Rejects "unused").

(** An operation called on the empty request at the demo platform. *)
Definition demo_call (op : WaitOp) (env : Env) (fuel : nat)
    (options : WaitOptions) : M Json :=
  call op demo_host env demo_http fuel ∅ options.

(** A policy whose timeout is below its interval. *)
Definition hasty : WaitOptions :=
  {| pollInterval := Some 5; timeout := Some 3 |}.

(** More networks for the scenarios: the first poll is refused; the submit
    call or the first poll is answered with the JSON value [null]; one
    processing snapshot, then a completed one. *)
Definition env_poll_refused : Env :=
  scripted [reply_json created_h1; Rejects "ETIMEDOUT"] (Rejects "unused").

Definition reply_null : NetReply :=
  Responds {| status := 200; statusText := "OK"; body := inr (JPrim VNull) |}.

Definition env_null_submit : Env := scripted [reply_null] (Rejects "unused").

Definition env_null_poll : Env :=
  scripted [reply_json created_h1; reply_null] (Rejects "unused").

Definition env_then_completed : Env :=
  scripted [reply_json created_h1; reply_json processing;
            reply_json completed_R] (Rejects "unused").

(** A policy whose deadline has passed when the submit call returns. *)
Definition expired : WaitOptions :=
  {| pollInterval := Some 5; timeout := Some 0 |}.

(** A policy whose interval, 2^31 ms, is above what a timer honours. *)
Definition overlong : WaitOptions :=
  {| pollInterval := Some 2147483648; timeout := Some 50 |}.

(** One processing snapshot, then a failed one. *)
Definition env_then_failed : Env :=
  scripted [reply_json created_h1; reply_json processing;
            reply_json (failed_with (VStr "render error"))] (Rejects "unused").

(** A request that names its environment and project. *)
Definition scoped_request : Obj :=
  {[ "url" := VStr "https://example.com";
     "environment" := VStr "sandbox";
     "projectId" := VStr "p1" ]}.

(** Equality of values is decidable. *)
#[global] Instance JsValue_eq_dec : EqDecision JsValue.
Proof. unfold Date. solve_decision. Defined.

(** The properties the hydration helpers may convert. *)
Definition date_fields : list string :=
  ["createdAt"; "updatedAt"; "startedAt"; "completedAt";
   "lastRunAt"; "nextRunAt"; "periodStart"; "periodEnd"].

(** A 404 whose body is the JSON value [null]. *)
Definition not_found_null : Response :=
  {| status := 404; statusText := "Not Found"; body := inr (JPrim VNull) |}.

(** A 200 whose body is an HTML page. *)
Definition html_page : Response :=
  {| status := 200; statusText := "OK"; body := inl "Unexpected token <" |}.

(** A schedule update that names its environment. *)
Definition schedule_update : Obj :=
  {[ "id" := VStr "s1"; "environment" := VStr "sandbox";
     "frequency" := VStr "weekly" ]}.

(** Transform options with nothing set, and with a width and a zero
    quality. *)
Definition no_options : CDN.TransformOptions :=
  {| CDN.width := None; CDN.height := None; CDN.fit := None;
     CDN.format := None; CDN.quality := None; CDN.crop := None;
     CDN.cropX := None; CDN.cropY := None; CDN.cropWidth := None;
     CDN.cropHeight := None; CDN.blur := None; CDN.sharpen := None;
     CDN.brightness := None; CDN.saturation := None; CDN.grayscale := None;
     CDN.rotate := None; CDN.flip := None; CDN.flop := None |}.

Definition thumbnail_options : CDN.TransformOptions :=
  {| CDN.width := Some 800; CDN.height := None; CDN.fit := None;
     CDN.format := Some ""; CDN.quality := Some 0; CDN.crop := None;
     CDN.cropX := None; CDN.cropY := None; CDN.cropWidth := None;
     CDN.cropHeight := None; CDN.blur := None; CDN.sharpen := None;
     CDN.brightness := None; CDN.saturation := None;
     CDN.grayscale := Some false;
     CDN.rotate := None; CDN.flip := None; CDN.flop := None |}.

(** A host URL parser that accepts nothing, for keys that are not URLs. *)
Definition no_URL (s : string) : option URL := None.

(** * Proofs *)

(** ** The transport *)

Lemma get_prop_run j k s : get_prop j k s = (read j k, s).
Proof. destruct j as [o|[]]; reflexivity. Qed.

Lemma handleErrorResponse_run {A} h r s :
  HttpClient.handleErrorResponse (A:=A) h r s = (Thrown (classified h r), s).
Proof.
  unfold HttpClient.handleErrorResponse, classified, errorBody_of, bind,
    try_catch, Response_json.
  destruct (body r) as [why|j]; reflexivity.
Qed.

Lemma stringify_body h payload :
  match payload with
  | JPrim VUndefined => None
  | _ => JSON_stringify h payload
  end = JSON_stringify h payload.
Proof. destruct payload as [o|[]]; reflexivity. Qed.

Lemma request_run h env http method path payload s :
  HttpClient.request h env http method path payload s
  = (delivered h (net_reply env (length (sent s))),
     after_fetch env (wire h http method path payload) s).
Proof.
  unfold HttpClient.request. rewrite stringify_body.
  unfold try_catch, bind, fetch, wire, after_fetch, delivered.
  destruct (JSON_stringify h payload) as [str|] eqn:Hstr;
    (destruct (net_reply env (length (sent s))) as [why|r];
     [reflexivity|]);
    (destruct (ok r) eqn:Hok; simpl;
     [ unfold Response_json; destruct (body r); reflexivity
     | rewrite handleErrorResponse_run; reflexivity ]).
Qed.

(** ** One poll, and the loop *)

Lemma observe_not_pending h w reply : observe h w reply <> Pending.
Proof.
  unfold observe, delivered.
  destruct reply as [why|r]; [discriminate|].
  destruct (ok r); [|discriminate].
  destruct (body r) as [why|[o|v]]; [discriminate| |].
  - destruct (is_terminal w _); [|discriminate].
    destruct (failure_message w); [|discriminate].
    destruct (is_str _ _); discriminate.
  - destruct v; simpl; try discriminate;
      destruct (is_terminal w VUndefined); discriminate.
Qed.

Lemma poll_run h env http w interval id request s :
  poll h env http w interval id request s =
  match observe h w (net_reply env (length (sent s))) with
  | Done None =>
      (Done None,
       after_sleep env interval
         (after_fetch env (lookup_request h http w id request) s))
  | r => (r, after_fetch env (lookup_request h http w id request) s)
  end.
Proof.
  unfold poll, lookup, HttpClient.get, bind at 1 2.
  rewrite request_run. fold (lookup_request h http w id request).
  unfold observe.
  destruct (delivered h _) as [[o|v]|e|]; try reflexivity.
  - simpl. unfold bind, ret. simpl.
    destruct (is_terminal w _); [|reflexivity].
    destruct (failure_message w); [|reflexivity].
    destruct (is_str _ _); reflexivity.
  - destruct v; simpl; try reflexivity;
      unfold bind, ret; simpl;
      destruct (is_terminal w VUndefined); try reflexivity;
      destruct (failure_message w); reflexivity.
Qed.

(** The timer: a delay within the limit is honoured, a positive interval
    always takes time, and no timer fires before it is set. *)
Lemma timer_delay_honoured ms :
  ms <= MAX_TIMER_DELAY -> timer_delay ms = Z.max 0 ms.
Proof.
  intros Hms. unfold timer_delay.
  destruct (Z.ltb_spec MAX_TIMER_DELAY ms); [lia|done].
Qed.

Lemma timer_delay_positive ms : 1 <= ms -> 1 <= timer_delay ms.
Proof.
  intros Hms. unfold timer_delay.
  destruct (Z.ltb_spec MAX_TIMER_DELAY ms); lia.
Qed.

Lemma timer_delay_nonneg ms : 0 <= timer_delay ms.
Proof.
  unfold timer_delay. destruct (Z.ltb_spec MAX_TIMER_DELAY ms); lia.
Qed.

Lemma poll_start_ge env interval k : forall n m t,
  t <= poll_start env interval k n m t.
Proof.
  induction k as [|k IH]; intros n m t; simpl; [lia|].
  pose proof (IH (S n) (S m)
                (t + Z.of_N (net_latency env n) + timer_delay interval
                   + Z.of_N (timer_lag env m))) as Hle.
  pose proof (timer_delay_nonneg interval). lia.
Qed.

Section Loop.
Context (h : Host) (env : Env) (http : HttpClient.t) (w : WaitShape).
Context (interval : Z) (id : JsValue) (request : Obj).
Context (startTime timeout : Z).

Local Abbreviation rq := (lookup_request h http w id request).
Local Abbreviation loop :=
  (poll_loop h env http w interval id request startTime timeout).
Local Abbreviation seen s := (observe h w (net_reply env (length (sent s)))).

Lemma loop_O s : loop 0%nat s = (Pending, s).
Proof. reflexivity. Qed.

Lemma loop_S fuel s :
  loop (S fuel) s =
  if (clock s - startTime <? timeout)%Z then
    match seen s with
    | Done None => loop fuel (after_sleep env interval (after_fetch env rq s))
    | Done (Some j) => (Done (Some j), after_fetch env rq s)
    | Thrown e => (Thrown e, after_fetch env rq s)
    | Pending => (Pending, after_fetch env rq s)
    end
  else (Done None, s).
Proof.
  unfold poll_loop. simpl. unfold bind at 1, deadline_open, bind at 1.
  simpl. destruct (clock s - startTime <? timeout)%Z; [|reflexivity].
  unfold bind. rewrite poll_run.
  destruct (seen s) as [[j|]|e|]; reflexivity.
Qed.

(** The loop only appends polls to the requests sent. *)
Lemma loop_sent fuel : forall s,
  exists k, sent (snd (loop fuel s)) = sent s ++ repeat rq k.
Proof.
  induction fuel as [|fuel IH]; intros s.
  - exists 0%nat. simpl. by rewrite app_nil_r.
  - rewrite loop_S. destruct (clock s - startTime <? timeout)%Z.
    + destruct (seen s) as [[j|]|e|];
        try (exists 1%nat; reflexivity).
      destruct (IH (after_sleep env interval (after_fetch env rq s)))
        as [k Hk].
      exists (S k). rewrite Hk. simpl. by rewrite <- app_assoc.
    + exists 0%nat. simpl. by rewrite app_nil_r.
Qed.

Lemma loop_sent_length fuel s :
  (length (sent s) <= length (sent (snd (loop fuel s))))%nat.
Proof.
  destruct (loop_sent fuel s) as [k ->]. rewrite length_app. lia.
Qed.

(** The first poll that does not see a running snapshot ends the loop,
    with what that poll observed. *)
Lemma loop_first_settled fuel : forall s i,
  (length (sent s) <= i < length (sent (snd (loop fuel s))))%nat ->
  observe h w (net_reply env i) <> Done None ->
  fst (loop fuel s) = observe h w (net_reply env i)
  /\ length (sent (snd (loop fuel s))) = S i.
Proof.
  induction fuel as [|fuel IH]; intros s i Hi Hobs.
  - simpl in Hi. lia.
  - revert Hi. rewrite loop_S.
    destruct (clock s - startTime <? timeout)%Z; [|simpl; lia].
    assert (Hstep: forall r,
               seen s = r -> r <> Done None ->
               (length (sent s) <= i < length (sent (after_fetch env rq s)))%nat ->
               r = observe h w (net_reply env i)
               /\ length (sent (after_fetch env rq s)) = S i).
    { intros r Hr _ Hi. simpl in *. rewrite length_app in *. simpl in *.
      assert (i = length (sent s)) as -> by lia. split; [done|lia]. }
    destruct (seen s) as [[j|]|e|] eqn:Hseen; simpl;
      try (intros Hi; eapply Hstep; eauto; discriminate).
    intros Hi.
    assert (i <> length (sent s)) by (intros ->; congruence).
    apply IH; [|done]. simpl. rewrite length_app. simpl. lia.
Qed.

(** While every poll sees a running snapshot the loop goes on: it ends
    only by the deadline. *)
Lemma loop_all_running fuel : forall s,
  (forall i, (length (sent s) <= i < length (sent (snd (loop fuel s))))%nat ->
             observe h w (net_reply env i) = Done None) ->
  fst (loop fuel s) = Done None \/ fst (loop fuel s) = Pending.
Proof.
  induction fuel as [|fuel IH]; intros s Hall; [by right|].
  revert Hall. rewrite loop_S.
  destruct (clock s - startTime <? timeout)%Z; [|by left].
  destruct (seen s) as [[j|]|e|] eqn:Hseen; cbn [fst snd]; intros Hall.
  - exfalso.
    assert (Done (Some j) = Done (@None Json)) as Habs; [|discriminate Habs].
    rewrite <- Hseen. apply Hall. simpl. rewrite length_app. simpl. lia.
  - apply IH. intros i Hi. apply Hall.
    pose proof (loop_sent_length fuel
                  (after_sleep env interval (after_fetch env rq s))) as Hle.
    simpl in *. rewrite length_app in *. simpl in *. lia.
  - exfalso.
    assert (Thrown e = Done (@None Json)) as Habs; [|discriminate Habs].
    rewrite <- Hseen. apply Hall. simpl. rewrite length_app. simpl. lia.
  - by right.
Qed.

(** A poll that sees anything but a running snapshot ends the loop
    before any timer is set. *)
Lemma loop_first_poll fuel s :
  seen s <> Done None ->
  slept (snd (loop fuel s)) = slept s
  /\ (length (sent (snd (loop fuel s))) <= S (length (sent s)))%nat
  /\ ((0 < fuel)%nat -> fst (loop fuel s) <> Pending).
Proof.
  intros Hseen. destruct fuel as [|fuel].
  - simpl. split; [done|]. split; lia.
  - rewrite loop_S. pose proof (observe_not_pending h w
                                  (net_reply env (length (sent s)))) as Hnp.
    destruct (clock s - startTime <? timeout)%Z.
    + destruct (seen s) as [[j|]|e|]; try done; simpl;
        rewrite length_app; simpl; (split; [done|]); (split; [lia|done]).
    + simpl. split; [done|]. split; [lia|done].
Qed.

(** Past the deadline the loop does nothing more. *)
Lemma loop_past_deadline fuel s :
  timeout <= clock s - startTime ->
  snd (loop fuel s) = s /\ ((0 < fuel)%nat -> fst (loop fuel s) = Done None).
Proof.
  intros Hlate. destruct fuel as [|fuel]; [simpl; split; [done|lia]|].
  rewrite loop_S.
  destruct (Z.ltb_spec (clock s - startTime) timeout); [lia|done].
Qed.

(** With a timeout below an interval that the timer honours, one sleep
    passes the deadline. *)
Lemma loop_short_timeout fuel s :
  timeout < interval -> interval <= MAX_TIMER_DELAY -> startTime <= clock s ->
  (length (sent (snd (loop fuel s))) <= S (length (sent s)))%nat
  /\ ((2 <= fuel)%nat -> fst (loop fuel s) <> Pending).
Proof.
  intros Hshort Hmax Hstart. destruct fuel as [|fuel]; [simpl; split; lia|].
  rewrite loop_S.
  pose proof (observe_not_pending h w (net_reply env (length (sent s)))) as Hnp.
  destruct (clock s - startTime <? timeout)%Z; [|simpl; split; [lia|done]].
  destruct (seen s) as [[j|]|e|]; try done;
    try (simpl; rewrite length_app; simpl; split; [lia|done]).
  destruct (loop_past_deadline fuel
              (after_sleep env interval (after_fetch env rq s))) as [-> Hres].
  { simpl. rewrite timer_delay_honoured by done. lia. }
  simpl. rewrite length_app. simpl. split; [lia|].
  intros Hfuel. rewrite Hres; [done|lia].
Qed.

(** And when the deadline is still open, that one poll is made. *)
Lemma loop_short_timeout_polls fuel s :
  timeout < interval -> interval <= MAX_TIMER_DELAY -> startTime <= clock s ->
  clock s - startTime < timeout -> (0 < fuel)%nat ->
  sent (snd (loop fuel s)) = sent s ++ [rq].
Proof.
  intros Hshort Hmax Hstart Hopen Hfuel.
  destruct fuel as [|fuel]; [lia|]. rewrite loop_S.
  destruct (Z.ltb_spec (clock s - startTime) timeout); [|lia].
  destruct (seen s) as [[j|]|e|]; try done.
  destruct (loop_past_deadline fuel
              (after_sleep env interval (after_fetch env rq s))) as [-> _];
    [|done].
  simpl. rewrite timer_delay_honoured by done. lia.
Qed.

(** With a positive interval every iteration takes time, so the loop
    ends within [timeout] iterations. *)
Lemma loop_terminates fuel : forall s,
  1 <= interval ->
  Z.max 0 (timeout - (clock s - startTime)) < Z.of_nat fuel ->
  fst (loop fuel s) <> Pending.
Proof.
  induction fuel as [|fuel IH]; intros s Hpos Hfuel; [lia|].
  rewrite loop_S.
  pose proof (observe_not_pending h w (net_reply env (length (sent s)))) as Hnp.
  destruct (Z.ltb_spec (clock s - startTime) timeout); [|done].
  destruct (seen s) as [[j|]|e|]; try done.
  apply IH; [done|]. simpl.
  pose proof (timer_delay_positive interval Hpos). lia.
Qed.

(** While the polls see running snapshots and the deadline is open when a
    poll starts, the loop gets to that poll: the first poll that sees
    anything else ends the loop with what it saw, after one request per
    poll and one timer per running snapshot. *)
Lemma loop_reaches k : forall fuel s r,
  (k < fuel)%nat ->
  (forall j, (j < k)%nat ->
             observe h w (net_reply env (length (sent s) + j)) = Done None) ->
  observe h w (net_reply env (length (sent s) + k)) = r ->
  r <> Done None ->
  poll_start env interval k (length (sent s)) (length (slept s)) (clock s)
    - startTime < timeout ->
  fst (loop fuel s) = r
  /\ sent (snd (loop fuel s)) = sent s ++ repeat rq (S k)
  /\ slept (snd (loop fuel s)) = slept s ++ repeat interval k.
Proof.
  induction k as [|k IH]; intros fuel s r Hfuel Hrun Hr Hne Hopen;
    (destruct fuel as [|fuel]; [lia|]); rewrite loop_S.
  - rewrite Nat.add_0_r in Hr. simpl in Hopen.
    destruct (Z.ltb_spec (clock s - startTime) timeout); [|lia].
    rewrite Hr. rewrite app_nil_r.
    destruct r as [[j|]|e|]; try done.
  - pose proof (poll_start_ge env interval (S k) (length (sent s))
                  (length (slept s)) (clock s)) as Hge.
    destruct (Z.ltb_spec (clock s - startTime) timeout); [|lia].
    assert (seen s = Done None) as ->.
    { rewrite <- (Nat.add_0_r (length (sent s))). apply Hrun. lia. }
    destruct (IH fuel (after_sleep env interval (after_fetch env rq s)) r)
      as (Hfst & Hsent & Hslept); try done.
    + lia.
    + intros j Hj. simpl. rewrite length_app. simpl.
      replace (length (sent s) + 1 + j)%nat with (length (sent s) + S j)%nat
        by lia.
      apply Hrun. lia.
    + simpl. rewrite length_app. simpl.
      replace (length (sent s) + 1 + k)%nat with (length (sent s) + S k)%nat
        by lia.
      done.
    + simpl. rewrite !length_app. simpl.
      replace (length (sent s) + 1)%nat with (S (length (sent s))) by lia.
      replace (length (slept s) + 1)%nat with (S (length (slept s))) by lia.
      exact Hopen.
    + rewrite Hfst, Hsent, Hslept. simpl. rewrite <- !app_assoc. done.
Qed.
End Loop.

(** ** The whole operation *)

Lemma wait_loop_run h env http w fuel request options s0 :
  wait_loop h env http w fuel request options s0 =
  let s1 := after_fetch env (submit_request h http w request) s0 in
  match delivered h (net_reply env (length (sent s0))) with
  | Done created =>
      match read created "id" with
      | Done id =>
          let r := poll_loop h env http w
                     (default (default_interval w) (pollInterval options))
                     id request (clock s0)
                     (default (default_timeout w) (timeout options)) fuel s1 in
          (finish w (fst r), snd r)
      | Thrown e => (Thrown e, s1)
      | Pending => (Pending, s1)
      end
  | Thrown e => (Thrown e, s1)
  | Pending => (Pending, s1)
  end.
Proof.
  unfold wait_loop, HttpClient.post, bind at 1 2, Date_now.
  rewrite request_run. fold (submit_request h http w request).
  destruct (delivered h _) as [created|e|]; try reflexivity.
  unfold bind at 1. rewrite get_prop_run.
  destruct (read created "id") as [id|e|]; try reflexivity.
  unfold bind. fold (poll_loop h env http w
                       (default (default_interval w) (pollInterval options))
                       id request (clock s0)
                       (default (default_timeout w) (timeout options)) fuel).
  cbv zeta.
  destruct (poll_loop _ _ _ _ _ _ _ _ _ _ _) as [[[j|]|e|] s2]; reflexivity.
Qed.

(** ** Hydration *)

Lemma prop_insert_eq (o : Obj) k v : prop (<[k:=v]> o) k = v.
Proof. unfold prop. by rewrite lookup_insert_eq. Qed.

Lemma prop_insert_ne (o : Obj) k k' v : k <> k' -> prop (<[k:=v]> o) k' = prop o k'.
Proof. intros Hne. unfold prop. by rewrite lookup_insert_ne. Qed.

Lemma typeof_new_Date h v : typeof (new_Date h v) = "object".
Proof. reflexivity. Qed.

Lemma step_wants h ks o :
  step h ks o = if wants ks o then <[fst ks := new_Date h (prop o (fst ks))]> o else o.
Proof.
  unfold step, wants, upgrade, upgrade_present.
  destruct ks as [k []]; simpl; [reflexivity|].
  reflexivity.
Qed.

Lemma step_lookup_other h ks o k :
  fst ks <> k -> step h ks o !! k = o !! k.
Proof.
  intros Hne. rewrite step_wants. destruct (wants ks o); [|done].
  by rewrite lookup_insert_ne.
Qed.

Lemma step_lookup_native h ks o k :
  typeof (prop o k) <> "string" -> step h ks o !! k = o !! k.
Proof.
  intros Hty. destruct (decide (fst ks = k)) as [<-|Hne].
  - rewrite step_wants. unfold wants.
    destruct (String.eqb_spec (typeof (prop o (fst ks))) "string"); [done|].
    by rewrite andb_false_r.
  - by apply step_lookup_other.
Qed.

Lemma wants_step h ks ks' o : wants ks o = false -> wants ks (step h ks' o) = false.
Proof.
  intros Hw. rewrite step_wants. destruct (wants ks' o); [|done].
  destruct (decide (fst ks' = fst ks)) as [Heq|Hne].
  - unfold wants. rewrite <- Heq, prop_insert_eq, typeof_new_Date.
    by rewrite andb_false_r.
  - unfold wants in *. by rewrite prop_insert_ne.
Qed.

Lemma step_settled h ks o : wants ks (step h ks o) = false.
Proof.
  destruct (wants ks o) eqn:Hw.
  - rewrite step_wants, Hw. unfold wants.
    rewrite prop_insert_eq, typeof_new_Date. by rewrite andb_false_r.
  - rewrite step_wants, Hw. done.
Qed.

Lemma steps_cons h ks l o : steps h (ks :: l) o = steps h l (step h ks o).
Proof. reflexivity. Qed.

Lemma wants_steps h ks l : forall o,
  wants ks o = false -> wants ks (steps h l o) = false.
Proof.
  induction l as [|ks' l IH]; intros o Hw; [done|].
  rewrite steps_cons. apply IH. by apply wants_step.
Qed.

Lemma steps_settled h l : forall o,
  Forall (fun ks => wants ks (steps h l o) = false) l.
Proof.
  induction l as [|ks l IH]; intros o; [constructor|].
  rewrite steps_cons. constructor; [|apply IH].
  apply wants_steps, step_settled.
Qed.

Lemma steps_fixed h l : forall o,
  Forall (fun ks => wants ks o = false) l -> steps h l o = o.
Proof.
  induction l as [|ks l IH]; intros o Hall; [done|].
  inversion Hall as [|? ? Hks Hl]; subst.
  rewrite steps_cons, step_wants, Hks. by apply IH.
Qed.

Lemma steps_idempotent h l o : steps h l (steps h l o) = steps h l o.
Proof. apply steps_fixed, steps_settled. Qed.

Lemma steps_lookup_native h l k : forall o,
  typeof (prop o k) <> "string" -> steps h l o !! k = o !! k.
Proof.
  induction l as [|ks l IH]; intros o Hty; [done|].
  rewrite steps_cons, IH; [by apply step_lookup_native|].
  unfold prop. by rewrite step_lookup_native.
Qed.

Lemma steps_lookup_other h l k : forall o,
  ~ In k (map fst l) -> steps h l o !! k = o !! k.
Proof.
  induction l as [|ks l IH]; intros o Hk; [done|].
  rewrite steps_cons, IH.
  - apply step_lookup_other. intros Heq. apply Hk. by left.
  - intros Hin. apply Hk. by right.
Qed.

Lemma hydrators_steps h :
  Forall (fun f => exists l, f = steps h l) (hydrators h).
Proof.
  unfold hydrators.
  repeat (constructor;
          [ first
              [ by exists [("createdAt", false); ("updatedAt", false)]
              | by exists [("createdAt", false); ("completedAt", true)]
              | by exists [("createdAt", false); ("startedAt", true);
                           ("completedAt", true)]
              | by exists [("createdAt", false); ("updatedAt", false);
                           ("lastRunAt", true); ("nextRunAt", true)]
              | by exists [("periodStart", false); ("periodEnd", false)] ]
          | ]).
  constructor.
Qed.

Lemma shape_hydrate_steps op h :
  exists l, hydrate (shape op) h = steps h l
            /\ ~ In "status" (map fst l) /\ ~ In "error" (map fst l).
Proof.
  destruct op;
    first
      [ exists [("createdAt", false); ("completedAt", true)];
        split; [reflexivity|]; simpl; intuition discriminate
      | exists [("createdAt", false); ("startedAt", true);
                ("completedAt", true)];
        split; [reflexivity|]; simpl; intuition discriminate ].
Qed.

Lemma hydrate_keeps_status op h o :
  prop (hydrate (shape op) h o) "status" = prop o "status".
Proof.
  destruct (shape_hydrate_steps op h) as (l & -> & Hs & _).
  unfold prop. by rewrite steps_lookup_other.
Qed.

Lemma hydrate_keeps_error op h o :
  prop (hydrate (shape op) h o) "error" = prop o "error".
Proof.
  destruct (shape_hydrate_steps op h) as (l & -> & _ & He).
  unfold prop. by rewrite steps_lookup_other.
Qed.

(** What a poll observes when the reply is a snapshot. *)
Lemma observe_answers op h reply o :
  answers reply o ->
  observe h (shape op) reply =
  if is_terminal (shape op) (prop o "status") then
    match settle op h o with
    | Done j => Done (Some j)
    | Thrown e => Thrown e
    | Pending => Pending
    end
  else Done None.
Proof.
  intros (r & -> & Hok & Hbody).
  unfold observe, delivered, settle. rewrite Hok, Hbody.
  cbv zeta. rewrite hydrate_keeps_status, hydrate_keeps_error.
  destruct (is_terminal _ _); [|reflexivity].
  destruct (failure_message _); [|reflexivity].
  destruct (is_str _ _); reflexivity.
Qed.

Lemma observe_running op h reply :
  running op reply -> observe h (shape op) reply = Done None.
Proof.
  intros (o & Hans & Hrun). by rewrite (observe_answers _ _ _ _ Hans), Hrun.
Qed.

Lemma call_shape op h env http fuel request options :
  call op h env http fuel request options
  = wait_loop h env http (shape op) fuel request options.
Proof. destruct op; reflexivity. Qed.

Lemma submit_shape op h env http request :
  submit op h env http request
  = HttpClient.post h env http (create_path (shape op)) (JObject request).
Proof. destruct op; reflexivity. Qed.

Lemma call_run op h env http fuel request options s0 :
  call op h env http fuel request options s0 =
  let s1 := after_fetch env (submit_request h http (shape op) request) s0 in
  match delivered h (net_reply env (length (sent s0))) with
  | Done created =>
      match read created "id" with
      | Done id =>
          let r := poll_loop h env http (shape op) (interval_of op options)
                     id request (clock s0) (timeout_of op options) fuel s1 in
          (finish (shape op) (fst r), snd r)
      | Thrown e => (Thrown e, s1)
      | Pending => (Pending, s1)
      end
  | Thrown e => (Thrown e, s1)
  | Pending => (Pending, s1)
  end.
Proof. rewrite call_shape. apply wait_loop_run. Qed.

Lemma submit_run op h env http request s0 :
  submit op h env http request s0 =
  (delivered h (net_reply env (length (sent s0))),
   after_fetch env (submit_request h http (shape op) request) s0).
Proof. rewrite submit_shape. apply request_run. Qed.

Lemma delivered_answers h reply o :
  answers reply o -> delivered h reply = Done (JObject o).
Proof. intros (r & -> & Hok & Hbody). unfold delivered. by rewrite Hok, Hbody. Qed.

Lemma delivered_not_pending h reply : delivered h reply <> Pending.
Proof.
  destruct reply as [why|r]; simpl; [discriminate|].
  destruct (ok r); [|discriminate]. destruct (body r); discriminate.
Qed.

Lemma read_not_pending j k : read j k <> Pending.
Proof. destruct j as [o|[]]; discriminate. Qed.

(** A run either stops at the submit call, which did not yield an object,
    or enters the loop with the [id] read off what the call returned. *)
Lemma call_cases op h env http fuel request options s0 :
  let s1 := after_fetch env (submit_request h http (shape op) request) s0 in
  (exists e,
      call op h env http fuel request options s0 = (Thrown e, s1)
      /\ forall o, ~ answers (net_reply env (length (sent s0))) o)
  \/ (exists created id,
         delivered h (net_reply env (length (sent s0))) = Done created
         /\ read created "id" = Done id
         /\ call op h env http fuel request options s0 =
            let r := poll_loop h env http (shape op) (interval_of op options)
                       id request (clock s0) (timeout_of op options) fuel s1 in
            (finish (shape op) (fst r), snd r)).
Proof.
  intros s1. rewrite call_run. fold s1. cbv zeta.
  destruct (delivered h _) as [created|e|] eqn:Hdel.
  - destruct (read created "id") as [id|e|] eqn:Hid.
    + right. by exists created, id.
    + left. exists e. split; [done|]. intros o Ho.
      rewrite (delivered_answers _ _ _ Ho) in Hdel. injection Hdel as <-.
      discriminate.
    + by destruct (read_not_pending created "id").
  - left. exists e. split; [done|]. intros o Ho.
    rewrite (delivered_answers _ _ _ Ho) in Hdel. discriminate.
  - by destruct (delivered_not_pending h (net_reply env (length (sent s0)))).
Qed.

Lemma failed_is_terminal op : is_terminal (shape op) (VStr "failed") = true.
Proof. destruct op; reflexivity. Qed.

Lemma batch_no_failure op : is_batch op = true -> failure_message (shape op) = None.
Proof. destruct op; simpl; congruence. Qed.

Lemma single_failure op :
  is_batch op = false -> exists fallback, failure_message (shape op) = Some fallback.
Proof. destruct op; simpl; try congruence; eauto. Qed.

(** ** The properties *)

(** C5: every wait-for-completion operation makes its submit call exactly
    once, as the first request of the run, and every later request is a
    poll (a GET); when the submit call throws, the operation throws the
    same error at once, in the state the submit call left: no request
    follows, and no timer is set. *)
Theorem submit_once_and_first (op : WaitOp) (h : Host) (env : Env)
    (http : HttpClient.t) (fuel : nat) (request : Obj)
    (options : WaitOptions) (s0 : State) :
  let run := call op h env http fuel request options in
  let create := submit_request h http (shape op) request in
  sent (final (submit op h env http request) s0) = sent s0 ++ [create]
  /\ req_method create = "POST"
  /\ (exists polls,
         sent (final run s0) = sent s0 ++ create :: polls
         /\ Forall (fun rq => req_method rq = "GET") polls)
  /\ (forall e,
         outcome (submit op h env http request) s0 = Thrown e ->
         outcome run s0 = Thrown e
         /\ final run s0 = final (submit op h env http request) s0
         /\ sent (final run s0) = sent s0 ++ [create]
         /\ slept (final run s0) = slept s0).
Proof.
  intros run create. unfold outcome, final, run.
  rewrite submit_run. fold create. simpl.
  split; [done|]. split; [done|]. split.
  - destruct (call_cases op h env http fuel request options s0)
      as [(e & -> & _)|(created & id & _ & _ & ->)]; fold create; cbv zeta.
    + exists []. split; [done|constructor].
    + destruct (loop_sent h env http (shape op) (interval_of op options) id
                  request (clock s0) (timeout_of op options) fuel
                  (after_fetch env create s0)) as [k Hk].
      exists (repeat (lookup_request h http (shape op) id request) k).
      simpl. rewrite Hk. simpl. rewrite <- app_assoc. split; [done|].
      apply List.Forall_forall. intros rq Hin. apply repeat_spec in Hin.
      by subst.
  - intros e He. rewrite call_run. fold create. cbv zeta. rewrite He. done.
Qed.

(** C3: when the first snapshot fetched is terminal, the operation ends on
    it (it returns the snapshot, or throws for a failed one) without
    having set a timer.  Whatever else happens, a run whose first poll is
    answered by a terminal snapshot sets no timer and polls at most once;
    and when the submit call is answered before the deadline, one
    iteration of fuel is enough: the run is the submit call and one poll
    for the id it returned, and it ends on that snapshot. *)
Theorem terminal_first_fetch_no_sleep (op : WaitOp) (h : Host) (env : Env)
    (http : HttpClient.t) (fuel : nat) (request : Obj)
    (options : WaitOptions) (s0 : State) (o : Obj) :
  answers (net_reply env (S (length (sent s0)))) o ->
  is_terminal (shape op) (prop o "status") = true ->
  let run := call op h env http fuel request options in
  slept (final run s0) = slept s0
  /\ (length (sent (final run s0)) <= length (sent s0) + 2)%nat
  /\ ((0 < fuel)%nat -> outcome run s0 <> Pending)
  /\ (length (sent (final run s0)) = (length (sent s0) + 2)%nat ->
      outcome run s0 = settle op h o)
  /\ (forall created,
        answers (net_reply env (length (sent s0))) created ->
        Z.of_N (net_latency env (length (sent s0))) < timeout_of op options ->
        (0 < fuel)%nat ->
        outcome run s0 = settle op h o
        /\ sent (final run s0)
           = sent s0 ++ [submit_request h http (shape op) request;
                         lookup_request h http (shape op) (prop created "id")
                           request]).
Proof.
  intros Hans Hterm run. unfold outcome, final, run.
  set (create := submit_request h http (shape op) request).
  destruct (call_cases op h env http fuel request options s0)
    as [(e & -> & Hno)|(created & id & Hdel & Hid & ->)]; fold create;
    cbv zeta; simpl.
  { rewrite length_app; simpl.
    repeat split; try (done || (intros; lia)); by destruct (Hno created). }
  set (s1 := after_fetch env create s0).
  assert (Hlen : length (sent s1) = S (length (sent s0))).
  { simpl. rewrite length_app. simpl. lia. }
  assert (Hobs : observe h (shape op) (net_reply env (length (sent s1)))
                 = match settle op h o with
                   | Done j => Done (Some j)
                   | Thrown e => Thrown e
                   | Pending => Pending
                   end).
  { rewrite Hlen, (observe_answers _ _ _ _ Hans), Hterm. done. }
  assert (Hne : observe h (shape op) (net_reply env (length (sent s1)))
                <> Done None).
  { rewrite Hobs. destruct (settle op h o); discriminate. }
  destruct (loop_first_poll h env http (shape op) (interval_of op options) id
              request (clock s0) (timeout_of op options) fuel s1 Hne)
    as (Hslept & Hsent & Hfuel).
  split; [done|]. split; [lia|]. split; [|split].
  - intros Hpos. specialize (Hfuel Hpos).
    destruct (fst (poll_loop _ _ _ _ _ _ _ _ _ _ _)) as [[j|]|e|]; done.
  - intros Hpolled.
    destruct (loop_first_settled h env http (shape op) (interval_of op options)
                id request (clock s0) (timeout_of op options) fuel s1
                (length (sent s1))) as [Hres _]; [lia|done|].
    rewrite Hres, Hobs. destruct (settle op h o); done.
  - intros created' Hcreated Hlat Hpos.
    rewrite (delivered_answers _ _ _ Hcreated) in Hdel.
    injection Hdel as <-. injection Hid as <-.
    destruct (loop_reaches h env http (shape op) (interval_of op options)
                (prop created' "id") request (clock s0) (timeout_of op options)
                0%nat fuel s1
                (observe h (shape op) (net_reply env (length (sent s1)))))
      as (Hres & Hpolls & _).
    + done.
    + intros j Hj. lia.
    + by rewrite Nat.add_0_r.
    + done.
    + simpl. lia.
    + rewrite Hres, Hobs, Hpolls. simpl. rewrite <- app_assoc.
      destruct (settle op h o); done.
Qed.

(** C2 (as amended): a single-operation wait that fetches a snapshot with
    status "failed" throws an error whose message is the snapshot's error
    when that is truthy (a non-empty string in particular) and the
    operation's fixed message otherwise; that fetch is the last request
    of the run. *)
Theorem failed_snapshot_throws (op : WaitOp) (h : Host) (env : Env)
    (http : HttpClient.t) (fuel : nat) (request : Obj)
    (options : WaitOptions) (s0 : State) (i : nat) (o : Obj) :
  is_batch op = false ->
  let run := call op h env http fuel request options in
  (length (sent s0) < i < length (sent (final run s0)))%nat ->
  answers (net_reply env i) o ->
  prop o "status" = VStr "failed" ->
  exists fallback,
    failure_message (shape op) = Some fallback
    /\ outcome run s0
       = Thrown (new_Error
                   (if truthy (prop o "error")
                    then ToString h (prop o "error") else fallback))
    /\ (forall m, prop o "error" = VStr m -> m <> "" ->
                  outcome run s0 = Thrown (new_Error m))
    /\ length (sent (final run s0)) = S i.
Proof.
  intros Hsingle run. unfold outcome, final, run.
  set (create := submit_request h http (shape op) request).
  destruct (single_failure op Hsingle) as [fallback Hfb].
  intros Hi Hans Hfailed. exists fallback. split; [done|].
  assert (Hobs : observe h (shape op) (net_reply env i)
                 = Thrown (new_Error
                             (if truthy (prop o "error")
                              then ToString h (prop o "error") else fallback))).
  { rewrite (observe_answers _ _ _ _ Hans), Hfailed, failed_is_terminal.
    unfold settle. rewrite Hfb, Hfailed. simpl. unfold or_else.
    destruct (truthy (prop o "error")); reflexivity. }
  revert Hi.
  destruct (call_cases op h env http fuel request options s0)
    as [(e & -> & _)|(created & id & _ & _ & ->)]; fold create; cbv zeta;
    simpl; [rewrite length_app; simpl; lia|].
  intros Hi.
  destruct (loop_first_settled h env http (shape op) (interval_of op options)
              id request (clock s0) (timeout_of op options) fuel
              (after_fetch env create s0) i) as [Hres Hlast].
  { simpl. rewrite length_app. simpl. lia. }
  { rewrite Hobs. discriminate. }
  rewrite Hres, Hobs. simpl. split; [done|]. split; [|done].
  intros m Hm Hne. rewrite Hm. simpl.
  destruct (String.eqb_spec m ""); [done|reflexivity].
Qed.

(** C10: a batch wait returns the job whose status is "completed",
    "failed" or "cancelled", hydrated, and throws nothing.  When the
    submit call is answered, the first [k] polls are answered by running
    jobs, the next one by such a job, and the deadline is still open when
    that poll starts, [k + 1] iterations of fuel are enough: the run is the
    submit call and [k + 1] polls for the id it returned, with [k] timers
    set in between, and it returns that job.  And whenever a run has
    fetched such a job, it has returned it and that fetch was its last
    request. *)
Theorem batch_returns_terminal_job (op : WaitOp) (h : Host) (env : Env)
    (http : HttpClient.t) (fuel : nat) (request : Obj)
    (options : WaitOptions) (s0 : State) :
  is_batch op = true ->
  let run := call op h env http fuel request options in
  (forall (k : nat) (created o : Obj),
      answers (net_reply env (length (sent s0))) created ->
      (forall j, (j < k)%nat ->
                 running op (net_reply env (S (length (sent s0)) + j))) ->
      answers (net_reply env (S (length (sent s0)) + k)) o ->
      In (prop o "status") [VStr "completed"; VStr "failed"; VStr "cancelled"] ->
      poll_start env (interval_of op options) k (S (length (sent s0)))
        (length (slept s0))
        (clock s0 + Z.of_N (net_latency env (length (sent s0))))
        - clock s0 < timeout_of op options ->
      (k < fuel)%nat ->
      outcome run s0 = Done (JObject (hydrate (shape op) h o))
      /\ sent (final run s0)
         = sent s0 ++ submit_request h http (shape op) request
                   :: repeat (lookup_request h http (shape op)
                                (prop created "id") request) (S k)
      /\ slept (final run s0) = slept s0 ++ repeat (interval_of op options) k)
  /\ (forall (i : nat) (o : Obj),
        (length (sent s0) < i < length (sent (final run s0)))%nat ->
        answers (net_reply env i) o ->
        In (prop o "status")
           [VStr "completed"; VStr "failed"; VStr "cancelled"] ->
        outcome run s0 = Done (JObject (hydrate (shape op) h o))
        /\ length (sent (final run s0)) = S i).
Proof.
  intros Hbatch run. unfold outcome, final, run.
  set (create := submit_request h http (shape op) request).
  assert (Hterm : forall o,
             In (prop o "status")
                [VStr "completed"; VStr "failed"; VStr "cancelled"] ->
             is_terminal (shape op) (prop o "status") = true).
  { intros o Hstatus. destruct op; try discriminate Hbatch;
      simpl in Hstatus; destruct Hstatus as [<-|[<-|[<-|[]]]]; reflexivity. }
  assert (Hobs : forall i o,
             answers (net_reply env i) o ->
             In (prop o "status")
                [VStr "completed"; VStr "failed"; VStr "cancelled"] ->
             observe h (shape op) (net_reply env i)
             = Done (Some (JObject (hydrate (shape op) h o)))).
  { intros i o Hans Hstatus.
    rewrite (observe_answers _ _ _ _ Hans), (Hterm o Hstatus).
    unfold settle. by rewrite (batch_no_failure op Hbatch). }
  destruct (call_cases op h env http fuel request options s0)
    as [(e & -> & Hno)|(created & id & Hdel & Hid & ->)]; fold create;
    cbv zeta; simpl.
  { split.
    - intros k created o Hcreated. by destruct (Hno created).
    - intros i o. rewrite length_app; simpl; lia. }
  set (s1 := after_fetch env create s0).
  assert (Hlen : length (sent s1) = S (length (sent s0))).
  { simpl. rewrite length_app. simpl. lia. }
  split.
  - intros k created' o Hcreated Hrun Hans Hstatus Hopen Hfuel.
    rewrite (delivered_answers _ _ _ Hcreated) in Hdel.
    injection Hdel as <-. injection Hid as <-.
    destruct (loop_reaches h env http (shape op) (interval_of op options)
                (prop created' "id") request (clock s0) (timeout_of op options)
                k fuel s1
                (Done (Some (JObject (hydrate (shape op) h o)))))
      as (Hres & Hsent & Hslept).
    + done.
    + intros j Hj. rewrite Hlen. apply observe_running, Hrun, Hj.
    + rewrite Hlen. by apply Hobs.
    + discriminate.
    + rewrite Hlen. exact Hopen.
    + rewrite Hres, Hsent, Hslept. simpl. rewrite <- app_assoc. done.
  - intros i o Hi Hans Hstatus.
    destruct (loop_first_settled h env http (shape op) (interval_of op options)
                id request (clock s0) (timeout_of op options) fuel s1 i)
      as [Hres Hlast].
    { lia. }
    { rewrite (Hobs i o Hans Hstatus). discriminate. }
    rewrite Hres, (Hobs i o Hans Hstatus). done.
Qed.

(** C4 (as amended): with a timeout strictly below the interval, and an
    interval within the 2147483647 ms a timer honours, a run polls at most
    once; two iterations of fuel are enough for it to end, and when the
    submit call succeeded and no snapshot fetched was terminal it ends by
    throwing the timeout error.  The one poll is made whenever the submit
    call is answered before the deadline: the run is then the submit call
    and one poll for the id it returned. *)
Theorem short_timeout_one_fetch (op : WaitOp) (h : Host) (env : Env)
    (http : HttpClient.t) (fuel : nat) (request : Obj)
    (options : WaitOptions) (s0 : State) :
  timeout_of op options < interval_of op options ->
  interval_of op options <= MAX_TIMER_DELAY ->
  let run := call op h env http fuel request options in
  (length (sent (final run s0)) <= length (sent s0) + 2)%nat
  /\ ((2 <= fuel)%nat -> outcome run s0 <> Pending)
  /\ ((2 <= fuel)%nat ->
      (exists created, answers (net_reply env (length (sent s0))) created) ->
      (forall i, (length (sent s0) < i < length (sent (final run s0)))%nat ->
                 running op (net_reply env i)) ->
      outcome run s0 = Thrown (new_Error (timeout_message (shape op))))
  /\ (forall created,
        answers (net_reply env (length (sent s0))) created ->
        Z.of_N (net_latency env (length (sent s0))) < timeout_of op options ->
        (0 < fuel)%nat ->
        sent (final run s0)
        = sent s0 ++ [submit_request h http (shape op) request;
                      lookup_request h http (shape op) (prop created "id")
                        request]).
Proof.
  intros Hshort Hmax run. unfold outcome, final, run.
  set (create := submit_request h http (shape op) request).
  destruct (call_cases op h env http fuel request options s0)
    as [(e & -> & Hno)|(created & id & Hdel & Hid & ->)]; fold create;
    cbv zeta; simpl.
  { rewrite length_app; simpl. split; [lia|]. split; [done|].
    split; [intros _ [c Hc]; by destruct (Hno c)|].
    intros c Hc. by destruct (Hno c). }
  set (s1 := after_fetch env create s0).
  assert (Hlen : length (sent s1) = S (length (sent s0))).
  { simpl. rewrite length_app. simpl. lia. }
  destruct (loop_short_timeout h env http (shape op) (interval_of op options)
              id request (clock s0) (timeout_of op options) fuel s1 Hshort
              Hmax)
    as [Hsent Hfuel].
  { simpl. lia. }
  split; [lia|]. split; [|split].
  - intros H2. specialize (Hfuel H2).
    destruct (fst (poll_loop _ _ _ _ _ _ _ _ _ _ _)) as [[j|]|e|]; done.
  - intros H2 _ Hrun. specialize (Hfuel H2).
    destruct (loop_all_running h env http (shape op) (interval_of op options)
                id request (clock s0) (timeout_of op options) fuel s1)
      as [Hres|Hres]; [|by rewrite Hres|done].
    intros i Hi. apply observe_running, Hrun. lia.
  - intros created' Hcreated Hlat Hpos.
    rewrite (delivered_answers _ _ _ Hcreated) in Hdel.
    injection Hdel as <-. injection Hid as <-.
    rewrite (loop_short_timeout_polls h env http (shape op)
               (interval_of op options) (prop created' "id") request (clock s0)
               (timeout_of op options) fuel s1 Hshort Hmax);
      [|simpl; lia|simpl; lia|done].
    simpl. by rewrite <- app_assoc.
Qed.

(** C1 (as amended): when the submit call succeeded and every snapshot
    fetched was non-terminal, an operation that has ended has thrown an
    error whose message is the operation's fixed timed-out message; the
    error has no property of its own, so it carries neither the handle nor
    a snapshot.  With an interval of at least 1 ms the operation does end,
    within [timeout] iterations. *)
Theorem timeout_throws_bare_error (op : WaitOp) (h : Host) (env : Env)
    (http : HttpClient.t) (fuel : nat) (request : Obj)
    (options : WaitOptions) (s0 : State) (created : Obj) :
  answers (net_reply env (length (sent s0))) created ->
  let run := call op h env http fuel request options in
  (forall i, (length (sent s0) < i < length (sent (final run s0)))%nat ->
             running op (net_reply env i)) ->
  let timed_out := new_Error (timeout_message (shape op)) in
  (outcome run s0 = Pending \/ outcome run s0 = Thrown timed_out)
  /\ (forall v, ~ carries timed_out v)
  /\ (1 <= interval_of op options ->
      (Z.to_nat (timeout_of op options) < fuel)%nat ->
      outcome run s0 = Thrown timed_out).
Proof.
  intros Hcreated run. unfold outcome, final, run.
  set (create := submit_request h http (shape op) request).
  destruct (call_cases op h env http fuel request options s0)
    as [(e & -> & Hno)|(created' & id & _ & _ & ->)]; fold create; cbv zeta;
    simpl; [by destruct (Hno created)|].
  set (s1 := after_fetch env create s0).
  intros Hrun.
  destruct (loop_all_running h env http (shape op) (interval_of op options)
              id request (clock s0) (timeout_of op options) fuel s1)
    as [Hres|Hres].
  { intros i Hi. apply observe_running, Hrun.
    revert Hi. simpl. rewrite length_app. simpl. lia. }
  - rewrite Hres. simpl. split; [by right|]. split; [|done].
    intros v [k []].
  - rewrite Hres. simpl. split; [by left|]. split.
    + intros v [k []].
    + intros Hpos Hfuel. exfalso.
      eapply (loop_terminates h env http (shape op) (interval_of op options)
                id request (clock s0) (timeout_of op options) fuel s1);
        [done| |done].
      simpl. lia.
Qed.

(** C6: the request handed to [fetch] always has the Authorization bearer
    header, and has Content-Type: application/json exactly when it has a
    body, which is exactly when a body was supplied to the transport. *)
Theorem content_type_iff_body (h : Host) (env : Env) (http : HttpClient.t)
    (method path : string) (payload : Json) (s : State) :
  exists rq,
    sent (final (HttpClient.request h env http method path payload) s)
    = sent s ++ [rq]
    /\ req_headers rq !! "Authorization"
       = Some ("Bearer " +:+ HttpClient.apiKey http)
    /\ (req_headers rq !! "Content-Type" = Some "application/json"
        <-> req_body rq <> None)
    /\ (req_headers rq !! "Content-Type" = None <-> req_body rq = None)
    /\ (req_body rq = None <-> payload = JPrim VUndefined)
    /\ (forall k, k <> "Authorization" -> k <> "Content-Type" ->
                  req_headers rq !! k = None).
Proof.
  exists (wire h http method path payload).
  unfold final. rewrite request_run. simpl. split; [done|].
  assert (Hundef : JSON_stringify h payload = None <-> payload = JPrim VUndefined).
  { destruct payload as [o|[]]; simpl; split; congruence. }
  unfold HttpClient.getHeaders. simpl.
  destruct (JSON_stringify h payload) as [str|] eqn:Hstr; simpl.
  - split; [by simplify_map_eq|]. split; [by simplify_map_eq|].
    split; [split; [done|by simplify_map_eq]|].
    split; [split; [done|intros Hp; apply Hundef in Hp; done]|].
    intros k H1 H2. by simplify_map_eq.
  - split; [by simplify_map_eq|]. split; [split; [by simplify_map_eq|done]|].
    split; [split; [done|by simplify_map_eq]|].
    split; [split; [intros _; by apply Hundef|done]|].
    intros k H1 H2. by simplify_map_eq.
Qed.

(** C7 (as amended): for a non-2xx response the transport throws the error
    built by [handleErrorResponse], which carries the numeric status; when
    the body is not JSON its message is the HTTP status text if that is
    non-empty and "HTTP <status>" otherwise; when the body is a JSON
    object with a string message, its message is that message if it is
    non-empty and "HTTP <status>" otherwise, it carries the payload's code
    (the empty string when the payload has none) and the decoded body. *)
Theorem non_2xx_classified (h : Host) (env : Env) (http : HttpClient.t)
    (method path : string) (payload : Json) (s : State) (r : Response) :
  net_reply env (length (sent s)) = Responds r ->
  ok r = false ->
  exists e,
    outcome (HttpClient.request h env http method path payload) s = Thrown e
    /\ outcome (HttpClient.handleErrorResponse (A:=Json) h r) s = Thrown e
    /\ err_get "statusCode" e = Some (PVal (VNum (status r)))
    /\ (forall why, body r = inl why ->
          err_message e
          = (if String.eqb (statusText r) ""
             then "HTTP " +:+ pretty (status r) else statusText r)
          /\ err_get "code" e = Some (PVal (VStr "")))
    /\ (forall o m, body r = inr (JObject o) -> prop o "message" = VStr m ->
          err_message e
          = (if String.eqb m "" then "HTTP " +:+ pretty (status r) else m))
    /\ (forall o, body r = inr (JObject o) ->
          err_get "code" e = Some (PVal (nullish (prop o "code") (VStr "")))
          /\ err_get "response" e = Some (PData (JObject o))).
Proof.
  intros Hreply Hok. exists (classified h r).
  unfold outcome. rewrite request_run, handleErrorResponse_run, Hreply.
  simpl. rewrite Hok. split; [done|]. split; [done|]. split; [done|].
  unfold classified, errorBody_of. split; [|split].
  - intros why ->. simpl. unfold or_else, prop. rewrite lookup_singleton_eq.
    simpl. split; [|done]. by destruct (String.eqb (statusText r) "").
  - intros o m -> Hm. simpl. rewrite Hm. unfold or_else. simpl.
    by destruct (String.eqb m "").
  - intros o ->. done.
Qed.

(** C8: when [fetch] rejects, the transport throws an error with message
    "Network error" whose cause is the rejection and which has no
    statusCode; a non-2xx response makes it throw the classified error of
    [handleErrorResponse] unchanged, which has a statusCode; and every
    error the transport throws is of one of these two kinds. *)
Theorem network_error_distinct (h : Host) (env : Env) (http : HttpClient.t)
    (method path : string) (payload : Json) (s : State) :
  let run := HttpClient.request h env http method path payload in
  let reply := net_reply env (length (sent s)) in
  (forall why, reply = Rejects why ->
     outcome run s
     = Thrown (HttpClient.createError "Network error" (Some (new_Error why)))
     /\ forall e, outcome run s = Thrown e ->
          err_message e = "Network error"
          /\ err_get "cause" e = Some (PErr (new_Error why))
          /\ err_has "statusCode" e = false)
  /\ (forall r, reply = Responds r -> ok r = false ->
        exists e, outcome run s = Thrown e
                  /\ outcome (HttpClient.handleErrorResponse (A:=Json) h r) s
                     = Thrown e
                  /\ err_has "statusCode" e = true
                  /\ err_get "statusCode" e = Some (PVal (VNum (status r))))
  /\ (forall e, outcome run s = Thrown e ->
        if err_has "statusCode" e
        then exists r, reply = Responds r /\ ok r = false
        else exists cause,
               e = HttpClient.createError "Network error" (Some cause)
               /\ forall r, reply = Responds r -> ok r = true).
Proof.
  intros run reply. unfold outcome, run. rewrite request_run. fold reply.
  simpl. split; [|split].
  - intros why ->. simpl. split; [done|]. by intros e [= <-].
  - intros r -> Hok. exists (classified h r).
    rewrite handleErrorResponse_run. simpl. by rewrite Hok.
  - intros e. destruct reply as [why|r]; simpl.
    + intros [= <-]. simpl. exists (new_Error why). split; [done|]. discriminate.
    + destruct (ok r) eqn:Hok.
      * destruct (body r) as [why|j]; [|discriminate].
        intros [= <-]. simpl. exists (new_Error why). split; [done|].
        by intros r' [= <-].
      * intros [= <-]. simpl. by exists r.
Qed.

(** C9: every date-hydration helper is idempotent on every object; it
    leaves a property that does not hold a string as it is (so a value
    already hydrated, [null] and an absent property are untouched), and
    applied to an object it returns without throwing. *)
Theorem hydration_idempotent (h : Host) :
  Forall
    (fun f : Obj -> Obj =>
       forall o : Obj,
         f (f o) = f o
         /\ (forall k, typeof (prop o k) <> "string" -> f o !! k = o !! k)
         /\ (forall s, on_object "createdAt" f (JObject o) s
                       = (Done (JObject (f o)), s)))
    (hydrators h).
Proof.
  eapply Forall_impl; [apply hydrators_steps|].
  intros f [l ->] o. split; [apply steps_idempotent|]. split; [|done].
  intros k Hk. by apply steps_lookup_native.
Qed.

(** ** The scenarios: instances and counterexamples *)

Lemma answers_reply_json o : answers (reply_json o) o.
Proof. by exists {| status := 200; statusText := "OK"; body := inr (JObject o) |}. Qed.

Lemma env_processing_running op i :
  (0 < i)%nat -> running op (net_reply env_processing i).
Proof.
  intros Hi. exists processing. split.
  - destruct i as [|[|i]]; [lia| |]; apply answers_reply_json.
  - destruct op; reflexivity.
Qed.

(** C1, as stated, fails: every snapshot is processing, the deadline
    passes, and the error thrown has no property that could hold the
    handle or the last snapshot. *)
Lemma timeout_error_carries_nothing :
  answers (net_reply env_processing 2) processing
  /\ length (sent (final (demo_call Webdata_screenshotAndWait env_processing
                            10 quick) fresh)) = 3%nat
  /\ exists e, outcome (demo_call Webdata_screenshotAndWait env_processing
                          10 quick) fresh = Thrown e
               /\ err_message e = "Screenshot timed out"
               /\ ~ carries e (PVal (VStr "h1"))
               /\ (forall snapshot, ~ carries e (PData snapshot)).
Proof.
  unfold demo_call.
  split; [apply answers_reply_json|]. split; [by vm_compute|].
  exists (new_Error "Screenshot timed out").
  split; [by vm_compute|]. split; [done|].
  split; [intros [k []]|intros snapshot [k []]].
Qed.

Lemma timeout_throws_bare_error_witness :
  answers (net_reply env_processing 0) created_h1
  /\ outcome (demo_call Webdata_screenshotAndWait env_processing 13 quick)
       fresh = Thrown (new_Error "Screenshot timed out").
Proof.
  unfold demo_call.
  split; [apply answers_reply_json|].
  apply (timeout_throws_bare_error Webdata_screenshotAndWait demo_host
           env_processing demo_http 13 ∅ quick fresh created_h1).
  - apply answers_reply_json.
  - intros i [Hi _]. apply env_processing_running. simpl in Hi. lia.
  - vm_compute. discriminate.
  - vm_compute. lia.
Defined.

(** C2, as stated, fails: a failed snapshot whose error is the empty
    string, or null, makes the operation throw its fixed message, not the
    snapshot's error. *)
Lemma failed_without_error_text :
  (answers (net_reply (env_failed (VStr "")) 1) (failed_with (VStr ""))
   /\ prop (failed_with (VStr "")) "error" = VStr ""
   /\ outcome (demo_call Webdata_screenshotAndWait (env_failed (VStr ""))
                 3 quick) fresh = Thrown (new_Error "Screenshot failed")
   /\ "Screenshot failed" <> "")
  /\ (answers (net_reply (env_failed VNull) 1) (failed_with VNull)
      /\ prop (failed_with VNull) "error" = VNull
      /\ outcome (demo_call Workflows_runAndWait (env_failed VNull) 3 quick)
           fresh = Thrown (new_Error "Workflow execution failed")).
Proof.
  unfold demo_call.
  split; (split; [apply answers_reply_json|]).
  - split; [by vm_compute|]. split; [by vm_compute|discriminate].
  - split; by vm_compute.
Qed.

Lemma failed_snapshot_throws_witness :
  answers (net_reply (env_failed (VStr "render error")) 1)
    (failed_with (VStr "render error"))
  /\ outcome (demo_call Webdata_screenshotAndWait
                (env_failed (VStr "render error")) 3 quick) fresh
     = Thrown (new_Error "render error")
  /\ length (sent (final (demo_call Webdata_screenshotAndWait
                            (env_failed (VStr "render error")) 3 quick)
                     fresh)) = 2%nat.
Proof.
  unfold demo_call.
  split; [apply answers_reply_json|].
  destruct (failed_snapshot_throws Webdata_screenshotAndWait demo_host
              (env_failed (VStr "render error")) demo_http 3 ∅ quick fresh 1
              (failed_with (VStr "render error")))
    as (fallback & _ & _ & Hmsg & Hlast).
  - reflexivity.
  - vm_compute. lia.
  - apply answers_reply_json.
  - by vm_compute.
  - split; [|exact Hlast]. apply Hmsg; [by vm_compute|discriminate].
Defined.

Lemma terminal_first_fetch_no_sleep_witness :
  answers (net_reply env_completed 1) completed_R
  /\ slept (final (demo_call Workflows_runAndWait env_completed 1 quick) fresh)
     = []
  /\ outcome (demo_call Workflows_runAndWait env_completed 1 quick) fresh
     = Done (JObject completed_R)
  /\ length (sent (final (demo_call Workflows_runAndWait env_completed 1 quick)
                     fresh)) = 2%nat.
Proof.
  unfold demo_call.
  split; [apply answers_reply_json|].
  destruct (terminal_first_fetch_no_sleep Workflows_runAndWait demo_host
              env_completed demo_http 1 ∅ quick fresh completed_R)
    as (Hslept & _ & _ & _ & Hends).
  - apply answers_reply_json.
  - by vm_compute.
  - destruct (Hends created_h1) as [Hout Hsent].
    + apply answers_reply_json.
    + by vm_compute.
    + lia.
    + split; [exact Hslept|]. split; [|by rewrite Hsent].
      rewrite Hout. by vm_compute.
Defined.

Lemma batch_returns_terminal_job_witness :
  is_batch Webdata_batchScreenshotsAndWait = true
  /\ outcome (demo_call Webdata_batchScreenshotsAndWait env_then_failed 2 quick)
       fresh
     = Done (JObject (Webdata.convertBatchJobDates demo_host
                        (failed_with (VStr "render error"))))
  /\ length (sent (final (demo_call Webdata_batchScreenshotsAndWait
                            env_then_failed 2 quick) fresh)) = 3%nat
  /\ slept (final (demo_call Webdata_batchScreenshotsAndWait env_then_failed
                     2 quick) fresh) = [5].
Proof.
  unfold demo_call.
  split; [reflexivity|].
  destruct (batch_returns_terminal_job Webdata_batchScreenshotsAndWait
              demo_host env_then_failed demo_http 2 ∅ quick fresh)
    as [Hreturns _]; [reflexivity|].
  destruct (Hreturns 1%nat created_h1 (failed_with (VStr "render error")))
    as (Hout & Hsent & Hslept).
  - apply answers_reply_json.
  - intros j Hj. assert (j = 0%nat) as -> by lia.
    exists processing. split; [apply answers_reply_json|reflexivity].
  - apply answers_reply_json.
  - right. left. by vm_compute.
  - vm_compute. reflexivity.
  - lia.
  - split; [exact Hout|]. split; [by rewrite Hsent|exact Hslept].
Defined.

(** C4, as stated, fails: with an interval of 2^31 ms and a timeout of
    50 ms the timeout is below the interval, yet every timer fires after
    1 ms and the run polls 25 times before the deadline passes. *)
Lemma overlong_interval_polls_again :
  timeout_of Extraction_extractAndWait overlong
  < interval_of Extraction_extractAndWait overlong
  /\ (forall i, (0 < i)%nat ->
                running Extraction_extractAndWait (net_reply env_processing i))
  /\ length (sent (final (demo_call Extraction_extractAndWait env_processing
                            40 overlong) fresh)) = 26%nat
  /\ slept (final (demo_call Extraction_extractAndWait env_processing
                     40 overlong) fresh) = repeat 2147483648 25
  /\ outcome (demo_call Extraction_extractAndWait env_processing 40 overlong)
       fresh = Thrown (new_Error "Extraction timed out").
Proof.
  unfold demo_call.
  split; [by vm_compute|].
  split; [intros i Hi; by apply env_processing_running|].
  split; [by vm_compute|]. split; by vm_compute.
Qed.

Lemma short_timeout_one_fetch_witness :
  timeout_of Extraction_extractAndWait hasty
  < interval_of Extraction_extractAndWait hasty
  /\ (length (sent (final (demo_call Extraction_extractAndWait env_processing
                             2 hasty) fresh)) <= 2)%nat
  /\ outcome (demo_call Extraction_extractAndWait env_processing 2 hasty) fresh
     = Thrown (new_Error "Extraction timed out")
  /\ length (sent (final (demo_call Extraction_extractAndWait env_processing
                            2 hasty) fresh)) = 2%nat.
Proof.
  unfold demo_call.
  split; [by vm_compute|].
  destruct (short_timeout_one_fetch Extraction_extractAndWait demo_host
              env_processing demo_http 2 ∅ hasty fresh)
    as (Hone & _ & Hend & Hpoll).
  - vm_compute. reflexivity.
  - vm_compute. discriminate.
  - split; [exact Hone|]. split.
    + apply Hend.
      * lia.
      * exists created_h1. apply answers_reply_json.
      * intros i [Hi _]. apply env_processing_running. simpl in Hi. lia.
    + rewrite (Hpoll created_h1); [reflexivity| | |lia].
      * apply answers_reply_json.
      * by vm_compute.
Defined.

Lemma submit_once_and_first_witness :
  outcome (demo_call Webdata_extractAndWait env_refused 5 quick) fresh
  = Thrown (network_error "ECONNREFUSED")
  /\ length (sent (final (demo_call Webdata_extractAndWait env_refused 5 quick)
                     fresh)) = 1%nat
  /\ slept (final (demo_call Webdata_extractAndWait env_refused 5 quick) fresh)
     = [].
Proof.
  unfold demo_call.
  destruct (submit_once_and_first Webdata_extractAndWait demo_host env_refused
              demo_http 5 ∅ quick fresh) as (_ & _ & _ & Hthrow).
  destruct (Hthrow (network_error "ECONNREFUSED")) as (Hout & _ & Hsent & Hslept).
  - by vm_compute.
  - split; [exact Hout|]. split; [by rewrite Hsent|exact Hslept].
Defined.

Lemma content_type_iff_body_witness :
  (exists rq,
      sent (final (HttpClient.get demo_host env_refused demo_http "/mail") fresh)
      = [rq]
      /\ req_headers rq !! "Content-Type" = None /\ req_body rq = None)
  /\ (exists rq,
         sent (final (HttpClient.post demo_host env_refused demo_http "/mail"
                        (JObject ∅)) fresh) = [rq]
         /\ req_headers rq !! "Content-Type" = Some "application/json"
         /\ req_body rq <> None).
Proof.
  split.
  - destruct (content_type_iff_body demo_host env_refused demo_http "GET"
                "/mail" (JPrim VUndefined) fresh)
      as (rq & Hsent & _ & _ & Hnone & Hbody & _).
    exists rq. split; [exact Hsent|].
    assert (req_body rq = None) as Hb by (by apply Hbody).
    split; [by apply Hnone|exact Hb].
  - destruct (content_type_iff_body demo_host env_refused demo_http "POST"
                "/mail" (JObject ∅) fresh)
      as (rq & Hsent & _ & Hsome & _ & Hbody & _).
    exists rq. split; [exact Hsent|].
    assert (req_body rq <> None) as Hb.
    { intros Hb. apply Hbody in Hb. discriminate. }
    split; [by apply Hsome|exact Hb].
Defined.

(** C7, as stated, fails: a 503 whose body is not JSON and whose status
    text is empty (as over HTTP/2) gives the message "HTTP 503". *)
Lemma empty_status_text_message :
  ok unavailable = false
  /\ body unavailable = inl "Unexpected token < in JSON"
  /\ exists e,
       outcome (HttpClient.get demo_host (env_reply unavailable) demo_http
                  "/mail") fresh = Thrown e
       /\ err_message e = "HTTP 503"
       /\ err_message e <> statusText unavailable.
Proof.
  split; [done|]. split; [done|].
  exists (classified demo_host unavailable).
  split; [by vm_compute|]. split; [by vm_compute|]. by vm_compute.
Qed.

Lemma non_2xx_classified_witness :
  exists e,
    outcome (HttpClient.post demo_host (env_reply bad_request) demo_http
               "/mail/send" (JObject ∅)) fresh = Thrown e
    /\ err_get "statusCode" e = Some (PVal (VNum 400))
    /\ err_message e = "title is required".
Proof.
  destruct (non_2xx_classified demo_host (env_reply bad_request) demo_http
              "POST" "/mail/send" (JObject ∅) fresh bad_request)
    as (e & Hout & _ & Hstatus & _ & Hmsg & _); [reflexivity|reflexivity|].
  exists e. split; [exact Hout|]. split; [exact Hstatus|].
  apply (Hmsg {[ "message" := VStr "title is required" ]} "title is required");
    reflexivity.
Defined.

Lemma network_error_distinct_witness :
  outcome (HttpClient.get demo_host env_refused demo_http "/mail") fresh
  = Thrown (network_error "ECONNREFUSED")
  /\ err_has "statusCode" (network_error "ECONNREFUSED") = false
  /\ exists e,
       outcome (HttpClient.get demo_host (env_reply unavailable) demo_http
                  "/mail") fresh = Thrown e
       /\ err_has "statusCode" e = true.
Proof.
  split; [|split; [reflexivity|]].
  - apply (network_error_distinct demo_host env_refused demo_http "GET"
             "/mail" (JPrim VUndefined) fresh).
    reflexivity.
  - destruct (network_error_distinct demo_host (env_reply unavailable)
                demo_http "GET" "/mail" (JPrim VUndefined) fresh)
      as (_ & Hhttp & _).
    destruct (Hhttp unavailable) as (e & Hout & _ & Hhas & _);
      [reflexivity|reflexivity|].
    exists e. split; [exact Hout|exact Hhas].
Defined.

Lemma hydration_idempotent_witness :
  Webdata.convertScreenshotDates demo_host
    (Webdata.convertScreenshotDates demo_host processing)
  = Webdata.convertScreenshotDates demo_host processing
  /\ Webdata.convertScreenshotDates demo_host processing !! "completedAt" = None
  /\ Webdata.convertScreenshotDates demo_host processing !! "createdAt"
     = Some (VDate (Some 10)).
Proof.
  pose proof (hydration_idempotent demo_host) as Hall.
  rewrite List.Forall_forall in Hall.
  destruct (Hall (Webdata.convertScreenshotDates demo_host)) with (o := processing)
    as (Hidem & Hnative & _).
  - unfold hydrators. simpl. tauto.
  - split; [exact Hidem|]. split; [|by vm_compute].
    rewrite Hnative; [by vm_compute|]. vm_compute. discriminate.
Defined.

(** * Further properties *)

(** ** The loop: accounting, time and bounds *)

Section LoopAccounting.
Context (h : Host) (env : Env) (http : HttpClient.t) (w : WaitShape).
Context (interval : Z) (id : JsValue) (request : Obj).
Context (startTime timeout : Z).

Local Abbreviation rq := (lookup_request h http w id request).
Local Abbreviation loop :=
  (poll_loop h env http w interval id request startTime timeout).
Local Abbreviation seen s := (observe h w (net_reply env (length (sent s)))).

(** Polls and sleeps alternate: a loop that ends on what a poll observed
    has polled once more than it has slept; one that ends by the deadline,
    or is still running, has slept after every poll. *)
Lemma loop_account fuel : forall s,
  exists k j,
    sent (snd (loop fuel s)) = sent s ++ repeat rq k
    /\ slept (snd (loop fuel s)) = slept s ++ repeat interval j
    /\ match fst (loop fuel s) with
       | Done None | Pending => k = j
       | Done (Some _) | Thrown _ => k = S j
       end.
Proof.
  induction fuel as [|fuel IH]; intros s.
  - exists 0%nat, 0%nat. simpl. by rewrite !app_nil_r.
  - rewrite loop_S.
    pose proof (observe_not_pending h w (net_reply env (length (sent s)))) as Hnp.
    destruct (clock s - startTime <? timeout)%Z.
    + destruct (seen s) as [[j|]|e|]; try done;
        try (exists 1%nat, 0%nat; simpl; by rewrite app_nil_r).
      destruct (IH (after_sleep env interval (after_fetch env rq s)))
        as (k & j & Hsent & Hslept & Hres).
      exists (S k), (S j). rewrite Hsent, Hslept. simpl.
      rewrite <- !app_assoc. simpl. split; [done|]. split; [done|].
      destruct (fst (loop fuel _)) as [[?|]|?|]; by subst.
    + exists 0%nat, 0%nat. simpl. by rewrite !app_nil_r.
Qed.

(** The loop gives up only once the deadline has passed. *)
Lemma loop_deadline_passed fuel : forall s,
  fst (loop fuel s) = Done None ->
  timeout <= clock (snd (loop fuel s)) - startTime.
Proof.
  induction fuel as [|fuel IH]; intros s; [discriminate|].
  rewrite loop_S.
  destruct (Z.ltb_spec (clock s - startTime) timeout); [|done].
  destruct (seen s) as [[j|]|e|]; try discriminate.
  apply IH.
Qed.

(** A poll is made only before the deadline, and [k] polls before it have
    each been followed by a sleep of at least the delay the timer gives
    the interval. *)
Lemma loop_poll_bound fuel : forall s k,
  length (sent (snd (loop fuel s))) = (length (sent s) + S k)%nat ->
  Z.of_nat k * timer_delay interval + (clock s - startTime) < timeout.
Proof.
  induction fuel as [|fuel IH]; intros s k; [simpl; lia|].
  rewrite loop_S.
  destruct (Z.ltb_spec (clock s - startTime) timeout); [|simpl; lia].
  assert (Hone : length (sent (after_fetch env rq s)) = S (length (sent s))).
  { simpl. rewrite length_app. simpl. lia. }
  destruct (seen s) as [[j|]|e|]; cbn [fst snd];
    try (rewrite Hone; intros Hk; assert (k = 0%nat) as -> by lia; lia).
  intros Hk. destruct k as [|k].
  - lia.
  - specialize (IH (after_sleep env interval (after_fetch env rq s)) k).
    simpl in IH. rewrite length_app in IH. simpl in IH.
    rewrite Nat2Z.inj_succ, Z.mul_succ_l.
    assert (Hlen : length (sent (snd (loop fuel
                     (after_sleep env interval (after_fetch env rq s)))))
                   = (length (sent s) + 1 + S k)%nat) by lia.
    specialize (IH Hlen). lia.
Qed.
End LoopAccounting.

(** ** The operations *)


(** X1: a poll that fails in the transport (the fetch rejects, the
    response is not 2xx, or a 2xx body is not JSON) is not retried: the
    operation throws the transport's error, and that poll is the last
    request of the run. *)
Theorem poll_failure_propagates (op : WaitOp) (h : Host) (env : Env)
    (http : HttpClient.t) (fuel : nat) (request : Obj)
    (options : WaitOptions) (s0 : State) (i : nat) (e : JsError) :
  let run := call op h env http fuel request options in
  (length (sent s0) < i < length (sent (final run s0)))%nat ->
  delivered h (net_reply env i) = Thrown e ->
  outcome run s0 = Thrown e
  /\ length (sent (final run s0)) = S i.
Proof.
  intros run. unfold outcome, final, run.
  set (create := submit_request h http (shape op) request).
  intros Hi Hdel.
  assert (Hobs : observe h (shape op) (net_reply env i) = Thrown e).
  { unfold observe. by rewrite Hdel. }
  revert Hi.
  destruct (call_cases op h env http fuel request options s0)
    as [(e' & -> & _)|(created & id & _ & _ & ->)]; fold create; cbv zeta;
    simpl; [rewrite length_app; simpl; lia|].
  intros Hi.
  destruct (loop_first_settled h env http (shape op) (interval_of op options)
              id request (clock s0) (timeout_of op options) fuel
              (after_fetch env create s0) i) as [Hres Hlast].
  { simpl. rewrite length_app. simpl. lia. }
  { rewrite Hobs. discriminate. }
  rewrite Hres, Hobs. done.
Qed.

Lemma poll_failure_propagates_witness :
  delivered demo_host (net_reply env_poll_refused 1)
  = Thrown (network_error "ETIMEDOUT")
  /\ outcome (demo_call Screenshots_captureAndWait env_poll_refused 5 quick)
       fresh = Thrown (network_error "ETIMEDOUT")
  /\ length (sent (final (demo_call Screenshots_captureAndWait
                            env_poll_refused 5 quick) fresh)) = 2%nat.
Proof.
  unfold demo_call. split; [reflexivity|].
  apply (poll_failure_propagates Screenshots_captureAndWait demo_host
           env_poll_refused demo_http 5 ∅ quick fresh 1
           (network_error "ETIMEDOUT")).
  - vm_compute. lia.
  - reflexivity.
Defined.

(** X2: every timer of a run is set for the poll interval, and polls and
    sleeps alternate: a run has polled as often as it has slept, or once
    more; a run that returns a snapshot has polled exactly once more. *)
Theorem sleeps_track_polls (op : WaitOp) (h : Host) (env : Env)
    (http : HttpClient.t) (fuel : nat) (request : Obj)
    (options : WaitOptions) (s0 : State) :
  let run := call op h env http fuel request options in
  exists polls sleeps,
    length (sent (final run s0)) = (length (sent s0) + 1 + polls)%nat
    /\ slept (final run s0)
       = slept s0 ++ repeat (interval_of op options) sleeps
    /\ (polls = sleeps \/ polls = S sleeps)
    /\ (forall snapshot, outcome run s0 = Done snapshot -> polls = S sleeps).
Proof.
  intros run. unfold outcome, final, run.
  set (create := submit_request h http (shape op) request).
  destruct (call_cases op h env http fuel request options s0)
    as [(e' & -> & _)|(created & id & _ & _ & ->)]; fold create; cbv zeta;
    simpl.
  - exists 0%nat, 0%nat. rewrite length_app, app_nil_r. simpl.
    split; [lia|]. split; [done|]. split; [by left|]. discriminate.
  - destruct (loop_account h env http (shape op) (interval_of op options)
                id request (clock s0) (timeout_of op options) fuel
                (after_fetch env create s0)) as (k & j & Hsent & Hslept & Hres).
    exists k, j. rewrite Hsent, Hslept. simpl.
    rewrite !length_app, repeat_length. simpl. split; [lia|]. split; [done|].
    destruct (fst (poll_loop _ _ _ _ _ _ _ _ _ _ _)) as [[?|]|?|]; simpl;
      (split; [by (left + right)|]); try discriminate. done.
Qed.

Lemma sleeps_track_polls_witness :
  outcome (demo_call Workflows_runAndWait env_then_completed 5 quick) fresh
  = Done (JObject completed_R)
  /\ length (sent (final (demo_call Workflows_runAndWait env_then_completed
                            5 quick) fresh)) = 3%nat
  /\ slept (final (demo_call Workflows_runAndWait env_then_completed 5 quick)
              fresh) = [5].
Proof.
  unfold demo_call.
  destruct (sleeps_track_polls Workflows_runAndWait demo_host
              env_then_completed demo_http 5 ∅ quick fresh)
    as (polls & sleeps & Hsent & Hslept & _ & Hdone).
  assert (Hout : outcome (call Workflows_runAndWait demo_host
                            env_then_completed demo_http 5 ∅ quick) fresh
                 = Done (JObject completed_R)) by (by vm_compute).
  specialize (Hdone _ Hout).
  assert (Hlen : length (sent (final (call Workflows_runAndWait demo_host
                    env_then_completed demo_http 5 ∅ quick) fresh)) = 3%nat)
    by (by vm_compute).
  split; [exact Hout|]. split; [exact Hlen|].
  rewrite Hlen in Hsent. simpl in Hsent.
  rewrite Hslept. assert (sleeps = 1%nat) as -> by lia.
  reflexivity.
Defined.

Lemma by_id_props op id request :
  prop (by_id id request (scope_key (shape op))) "id" = id
  /\ prop (by_id id request (scope_key (shape op))) "environment"
     = prop request "environment"
  /\ prop (by_id id request (scope_key (shape op))) (scope_key (shape op))
     = prop request (scope_key (shape op)).
Proof. destruct op; unfold by_id, prop; simpl; by simplify_map_eq. Qed.

Lemma lookup_path_by_id op h id request :
  lookup_path h (shape op) (by_id id request (scope_key (shape op)))
  = get_prefix (shape op) +:+ ToString h id
    +:+ query_suffix
          (params_toString h
             (set_if_present h request (scope_key (shape op))
                (set_if_present h request "environment" []))).
Proof.
  destruct (by_id_props op id request) as (Hid & Henv & Hscope).
  unfold lookup_path, set_if_present. by rewrite Hid, Henv, Hscope.
Qed.

Lemma append_empty_r (s : string) : s +:+ "" = s.
Proof.
  induction s as [|a s IH]; [done|].
  change (String a (s +:+ "") = String a s). by rewrite IH.
Qed.

(** X3: every poll of a run is the same request: a GET without body or
    Content-Type to the operation's lookup path for the [id] the submit
    call returned, with the environment and the project of the original
    request as query parameters, and no query at all when the request
    names neither. *)
Theorem polls_address_submitted_id (op : WaitOp) (h : Host) (env : Env)
    (http : HttpClient.t) (fuel : nat) (request : Obj)
    (options : WaitOptions) (s0 : State) (created : Obj) :
  answers (net_reply env (length (sent s0))) created ->
  let run := call op h env http fuel request options in
  let poll := lookup_request h http (shape op) (prop created "id") request in
  (exists k,
      sent (final run s0)
      = sent s0 ++ submit_request h http (shape op) request :: repeat poll k)
  /\ req_method poll = "GET"
  /\ req_body poll = None
  /\ req_headers poll !! "Content-Type" = None
  /\ req_url poll
     = HttpClient.baseUrl http
       +:+ (get_prefix (shape op) +:+ ToString h (prop created "id")
            +:+ query_suffix
                  (params_toString h
                     (set_if_present h request (scope_key (shape op))
                        (set_if_present h request "environment" []))))
  /\ (truthy (prop request "environment") = false ->
      truthy (prop request (scope_key (shape op))) = false ->
      req_url poll
      = HttpClient.baseUrl http
        +:+ (get_prefix (shape op) +:+ ToString h (prop created "id"))).
Proof.
  intros Hans run poll. unfold final, run.
  set (create := submit_request h http (shape op) request).
  split; [|split; [done|split; [done|split; [by simplify_map_eq|]]]].
  - destruct (call_cases op h env http fuel request options s0)
      as [(e' & _ & Hno)|(created' & id & Hdel & Hid & ->)]; fold create;
      cbv zeta; simpl; [by destruct (Hno created)|].
    rewrite (delivered_answers _ _ _ Hans) in Hdel. injection Hdel as <-.
    simpl in Hid. injection Hid as <-.
    destruct (loop_sent h env http (shape op) (interval_of op options)
                (prop created "id") request (clock s0) (timeout_of op options)
                fuel (after_fetch env create s0)) as [k Hk].
    exists k. rewrite Hk. simpl. by rewrite <- app_assoc.
  - unfold poll, lookup_request, wire. simpl. rewrite lookup_path_by_id.
    split; [done|]. intros Henv Hscope.
    unfold set_if_present. rewrite Henv, Hscope. simpl.
    by rewrite append_empty_r.
Qed.

Lemma polls_address_submitted_id_witness :
  answers (net_reply env_processing 0) created_h1
  /\ map req_url
       (sent (final (call Webdata_screenshotAndWait demo_host env_processing
                       demo_http 13 scoped_request quick) fresh))
     = [ "https://api.stack0.dev/v1/webdata/screenshots";
         "https://api.stack0.dev/v1/webdata/screenshots/h1?environment=sandbox&projectId=p1";
         "https://api.stack0.dev/v1/webdata/screenshots/h1?environment=sandbox&projectId=p1" ].
Proof.
  split; [apply answers_reply_json|].
  destruct (polls_address_submitted_id Webdata_screenshotAndWait demo_host
              env_processing demo_http 13 scoped_request quick fresh created_h1)
    as ([k Hsent] & _); [apply answers_reply_json|].
  assert (Hlen : length (sent (final (call Webdata_screenshotAndWait demo_host
                    env_processing demo_http 13 scoped_request quick) fresh))
                 = 3%nat) by (by vm_compute).
  rewrite Hsent in Hlen |- *. rewrite length_app in Hlen. simpl in Hlen.
  rewrite repeat_length in Hlen. assert (k = 2%nat) as -> by lia.
  by vm_compute.
Defined.

(** X4: when the timeout is no longer than the submit call took (zero and
    negative timeouts included), the operation throws the timeout error
    without a single poll or sleep. *)
Theorem deadline_before_first_poll (op : WaitOp) (h : Host) (env : Env)
    (http : HttpClient.t) (fuel : nat) (request : Obj)
    (options : WaitOptions) (s0 : State) (created : Obj) :
  answers (net_reply env (length (sent s0))) created ->
  timeout_of op options <= Z.of_N (net_latency env (length (sent s0))) ->
  (0 < fuel)%nat ->
  let run := call op h env http fuel request options in
  outcome run s0 = Thrown (new_Error (timeout_message (shape op)))
  /\ sent (final run s0) = sent s0 ++ [submit_request h http (shape op) request]
  /\ slept (final run s0) = slept s0.
Proof.
  intros Hans Hlate Hfuel run. unfold outcome, final, run.
  set (create := submit_request h http (shape op) request).
  destruct (call_cases op h env http fuel request options s0)
    as [(e' & _ & Hno)|(created' & id & _ & _ & ->)]; fold create;
    cbv zeta; simpl; [by destruct (Hno created)|].
  destruct (loop_past_deadline h env http (shape op) (interval_of op options)
              id request (clock s0) (timeout_of op options) fuel
              (after_fetch env create s0)) as [-> Hres].
  { simpl. lia. }
  rewrite (Hres Hfuel). done.
Qed.

Lemma deadline_before_first_poll_witness :
  outcome (demo_call Webdata_batchExtractionsAndWait env_completed 5 expired)
    fresh = Thrown (new_Error "Batch job timed out")
  /\ length (sent (final (demo_call Webdata_batchExtractionsAndWait
                            env_completed 5 expired) fresh)) = 1%nat.
Proof.
  unfold demo_call.
  destruct (deadline_before_first_poll Webdata_batchExtractionsAndWait
              demo_host env_completed demo_http 5 ∅ expired fresh created_h1)
    as (Hout & Hsent & _).
  - apply answers_reply_json.
  - by vm_compute.
  - lia.
  - split; [exact Hout|]. by rewrite Hsent.
Defined.

(** X5: the timeout is never raised early: when the submit call succeeded
    and every snapshot fetched was non-terminal, a run that has ended has
    ended at or after the deadline. *)
Theorem timeout_not_early (op : WaitOp) (h : Host) (env : Env)
    (http : HttpClient.t) (fuel : nat) (request : Obj)
    (options : WaitOptions) (s0 : State) (created : Obj) :
  answers (net_reply env (length (sent s0))) created ->
  let run := call op h env http fuel request options in
  (forall i, (length (sent s0) < i < length (sent (final run s0)))%nat ->
             running op (net_reply env i)) ->
  outcome run s0 <> Pending ->
  timeout_of op options <= clock (final run s0) - clock s0.
Proof.
  intros Hans run. unfold outcome, final, run.
  set (create := submit_request h http (shape op) request).
  destruct (call_cases op h env http fuel request options s0)
    as [(e' & _ & Hno)|(created' & id & _ & _ & ->)]; fold create;
    cbv zeta; simpl; [by destruct (Hno created)|].
  set (s1 := after_fetch env create s0).
  intros Hrun Hended.
  destruct (loop_all_running h env http (shape op) (interval_of op options)
              id request (clock s0) (timeout_of op options) fuel s1)
    as [Hres|Hres].
  { intros i Hi. apply observe_running, Hrun.
    revert Hi. simpl. rewrite length_app. simpl. lia. }
  - by apply loop_deadline_passed.
  - rewrite Hres in Hended. done.
Qed.

Lemma timeout_not_early_witness :
  clock (final (demo_call Webdata_screenshotAndWait env_processing 13 quick)
           fresh) = 13
  /\ timeout_of Webdata_screenshotAndWait quick
     <= clock (final (demo_call Webdata_screenshotAndWait env_processing
                        13 quick) fresh) - clock fresh.
Proof.
  unfold demo_call. split; [by vm_compute|].
  apply (timeout_not_early Webdata_screenshotAndWait demo_host env_processing
           demo_http 13 ∅ quick fresh created_h1).
  - apply answers_reply_json.
  - intros i [Hi _]. apply env_processing_running. simpl in Hi. lia.
  - by vm_compute.
Defined.

(** X6: the policy bounds the polls, whatever the network answered: a run
    that has made k + 1 polls has k timer delays below its timeout; the
    delay is the interval itself when the interval is within the
    2147483647 ms a timer honours, and then k intervals are below the
    timeout. *)
Theorem polls_bounded_by_policy (op : WaitOp) (h : Host) (env : Env)
    (http : HttpClient.t) (fuel : nat) (request : Obj)
    (options : WaitOptions) (s0 : State) (k : nat) :
  let run := call op h env http fuel request options in
  length (sent (final run s0)) = (length (sent s0) + 2 + k)%nat ->
  Z.of_nat k * timer_delay (interval_of op options) < timeout_of op options
  /\ (interval_of op options <= MAX_TIMER_DELAY ->
      Z.of_nat k * interval_of op options < timeout_of op options).
Proof.
  intros run. unfold final, run.
  set (create := submit_request h http (shape op) request).
  destruct (call_cases op h env http fuel request options s0)
    as [(e' & -> & _)|(created & id & _ & _ & ->)]; fold create; cbv zeta;
    simpl; [rewrite length_app; simpl; lia|].
  intros Hlen.
  pose proof (loop_poll_bound h env http (shape op) (interval_of op options)
                id request (clock s0) (timeout_of op options) fuel
                (after_fetch env create s0) k) as Hbound.
  simpl in Hbound. rewrite length_app in Hbound. simpl in Hbound.
  assert (Hk : Z.of_nat k * timer_delay (interval_of op options)
               + (clock s0 + Z.of_N (net_latency env (length (sent s0)))
                  - clock s0) < timeout_of op options) by (apply Hbound; lia).
  split; [lia|]. intros Hmax.
  rewrite (timer_delay_honoured _ Hmax) in Hk.
  assert (Z.of_nat k * interval_of op options
          <= Z.of_nat k * Z.max 0 (interval_of op options)) by nia.
  lia.
Qed.

Lemma polls_bounded_by_policy_witness :
  length (sent (final (demo_call Webdata_screenshotAndWait env_processing
                         13 quick) fresh)) = 3%nat
  /\ 1 * interval_of Webdata_screenshotAndWait quick
     < timeout_of Webdata_screenshotAndWait quick.
Proof.
  unfold demo_call.
  assert (Hlen : length (sent (final (call Webdata_screenshotAndWait demo_host
                    env_processing demo_http 13 ∅ quick) fresh)) = 3%nat)
    by (by vm_compute).
  split; [exact Hlen|].
  destruct (polls_bounded_by_policy Webdata_screenshotAndWait demo_host
              env_processing demo_http 13 ∅ quick fresh 1 Hlen) as [_ Hk].
  apply Hk. vm_compute. discriminate.
Defined.

(** X7: an operation that fetches a snapshot with a terminal status other
    than "failed" returns that snapshot, hydrated; that fetch is the last
    request of the run. *)
Theorem terminal_success_returned (op : WaitOp) (h : Host) (env : Env)
    (http : HttpClient.t) (fuel : nat) (request : Obj)
    (options : WaitOptions) (s0 : State) (i : nat) (o : Obj) :
  let run := call op h env http fuel request options in
  (length (sent s0) < i < length (sent (final run s0)))%nat ->
  answers (net_reply env i) o ->
  is_terminal (shape op) (prop o "status") = true ->
  is_str (prop o "status") "failed" = false ->
  outcome run s0 = Done (JObject (hydrate (shape op) h o))
  /\ length (sent (final run s0)) = S i.
Proof.
  intros run. unfold outcome, final, run.
  set (create := submit_request h http (shape op) request).
  intros Hi Hans Hterm Hok.
  assert (Hobs : observe h (shape op) (net_reply env i)
                 = Done (Some (JObject (hydrate (shape op) h o)))).
  { rewrite (observe_answers _ _ _ _ Hans), Hterm.
    unfold settle. rewrite Hok. by destruct (failure_message (shape op)). }
  revert Hi.
  destruct (call_cases op h env http fuel request options s0)
    as [(e' & -> & _)|(created & id & _ & _ & ->)]; fold create; cbv zeta;
    simpl; [rewrite length_app; simpl; lia|].
  intros Hi.
  destruct (loop_first_settled h env http (shape op) (interval_of op options)
              id request (clock s0) (timeout_of op options) fuel
              (after_fetch env create s0) i) as [Hres Hlast].
  { simpl. rewrite length_app. simpl. lia. }
  { rewrite Hobs. discriminate. }
  rewrite Hres, Hobs. done.
Qed.

Lemma terminal_success_returned_witness :
  answers (net_reply env_then_completed 2) completed_R
  /\ outcome (demo_call Extraction_extractAndWait env_then_completed 5 quick)
       fresh = Done (JObject completed_R)
  /\ length (sent (final (demo_call Extraction_extractAndWait
                            env_then_completed 5 quick) fresh)) = 3%nat.
Proof.
  unfold demo_call. split; [apply answers_reply_json|].
  destruct (terminal_success_returned Extraction_extractAndWait demo_host
              env_then_completed demo_http 5 ∅ quick fresh 2 completed_R)
    as [Hout Hlast].
  - vm_compute. lia.
  - apply answers_reply_json.
  - by vm_compute.
  - by vm_compute.
  - split; [|exact Hlast]. rewrite Hout. by vm_compute.
Defined.



(** X9: a 2xx body that is the JSON value [null] makes the operation
    throw: as the answer to the submit call before any poll, as the
    answer to a poll with that poll as the last request. *)
Theorem null_body_throws (op : WaitOp) (h : Host) (env : Env)
    (http : HttpClient.t) (fuel : nat) (request : Obj)
    (options : WaitOptions) (s0 : State) :
  let run := call op h env http fuel request options in
  (delivered h (net_reply env (length (sent s0))) = Done (JPrim VNull) ->
   (exists e, outcome run s0 = Thrown e)
   /\ sent (final run s0) = sent s0 ++ [submit_request h http (shape op) request]
   /\ slept (final run s0) = slept s0)
  /\ (forall i,
        (length (sent s0) < i < length (sent (final run s0)))%nat ->
        delivered h (net_reply env i) = Done (JPrim VNull) ->
        (exists e, outcome run s0 = Thrown e)
        /\ length (sent (final run s0)) = S i).
Proof.
  intros run. unfold outcome, final, run.
  set (create := submit_request h http (shape op) request).
  split.
  - intros Hdel. rewrite call_run. fold create. cbv zeta. rewrite Hdel.
    simpl. eauto.
  - intros i Hi Hdel.
    assert (Hobs : exists e, observe h (shape op) (net_reply env i) = Thrown e).
    { unfold observe. rewrite Hdel. simpl. eauto. }
    destruct Hobs as [e Hobs]. revert Hi.
    destruct (call_cases op h env http fuel request options s0)
      as [(e' & -> & _)|(created & id & _ & _ & ->)]; fold create; cbv zeta;
      simpl; [rewrite length_app; simpl; lia|].
    intros Hi.
    destruct (loop_first_settled h env http (shape op) (interval_of op options)
                id request (clock s0) (timeout_of op options) fuel
                (after_fetch env create s0) i) as [Hres Hlast].
    { simpl. rewrite length_app. simpl. lia. }
    { rewrite Hobs. discriminate. }
    rewrite Hres, Hobs. simpl. eauto.
Qed.

Lemma null_body_throws_witness :
  (exists e, outcome (demo_call Webdata_extractAndWait env_null_submit 5 quick)
               fresh = Thrown e)
  /\ length (sent (final (demo_call Webdata_extractAndWait env_null_submit
                            5 quick) fresh)) = 1%nat
  /\ (exists e, outcome (demo_call Webdata_extractAndWait env_null_poll 5 quick)
                  fresh = Thrown e)
  /\ length (sent (final (demo_call Webdata_extractAndWait env_null_poll
                            5 quick) fresh)) = 2%nat.
Proof.
  unfold demo_call.
  destruct (null_body_throws Webdata_extractAndWait demo_host env_null_submit
              demo_http 5 ∅ quick fresh) as [Hsubmit _].
  destruct Hsubmit as (He & Hsent & _); [reflexivity|].
  destruct (null_body_throws Webdata_extractAndWait demo_host env_null_poll
              demo_http 5 ∅ quick fresh) as [_ Hpoll].
  destruct (Hpoll 1%nat) as (He' & Hlast); [vm_compute; lia|reflexivity|].
  split; [exact He|]. split; [by rewrite Hsent|]. split; [exact He'|exact Hlast].
Defined.

(** ** The transport *)



(** X11: on a 2xx response the transport returns the decoded body as it
    is, whatever JSON value it is; when the body is not JSON it throws
    "Network error" with the parse error as cause and without statusCode,
    although the server was reached. *)
Theorem success_body_or_network_error (h : Host) (env : Env)
    (http : HttpClient.t) (method path : string) (payload : Json)
    (s : State) (r : Response) :
  net_reply env (length (sent s)) = Responds r ->
  ok r = true ->
  let run := HttpClient.request h env http method path payload in
  (forall j, body r = inr j -> outcome run s = Done j)
  /\ (forall why, body r = inl why ->
        outcome run s
        = Thrown (HttpClient.createError "Network error"
                    (Some (new_Error why)))
        /\ err_has "statusCode"
             (HttpClient.createError "Network error" (Some (new_Error why)))
           = false).
Proof.
  intros Hreply Hok run. unfold outcome, run. rewrite request_run, Hreply.
  simpl. rewrite Hok. split.
  - by intros j ->.
  - by intros why ->.
Qed.

Lemma success_body_or_network_error_witness :
  ok html_page = true
  /\ outcome (HttpClient.get demo_host (env_reply html_page) demo_http "/mail")
       fresh = Thrown (network_error "Unexpected token <").
Proof.
  split; [reflexivity|].
  destruct (success_body_or_network_error demo_host (env_reply html_page)
              demo_http "GET" "/mail" (JPrim VUndefined) fresh html_page)
    as [_ Hbad]; [reflexivity|reflexivity|].
  destruct (Hbad "Unexpected token <") as [Hout _]; [reflexivity|].
  exact Hout.
Defined.

(** X12: a non-2xx response whose JSON body offers no truthy [message]
    (the value [null], a number, an array, an object without the
    property or with an empty one) gives the message "HTTP <status>"; the
    error still carries the status and the decoded body, and its code is
    the empty string when the body is not an object. *)
Theorem non_2xx_without_message (h : Host) (env : Env) (http : HttpClient.t)
    (method path : string) (payload : Json) (s : State) (r : Response)
    (j : Json) :
  net_reply env (length (sent s)) = Responds r ->
  ok r = false ->
  body r = inr j ->
  truthy (opt_chain j "message") = false ->
  exists e,
    outcome (HttpClient.request h env http method path payload) s = Thrown e
    /\ err_message e = "HTTP " +:+ pretty (status r)
    /\ err_get "statusCode" e = Some (PVal (VNum (status r)))
    /\ err_get "response" e = Some (PData j)
    /\ (forall v, j = JPrim v -> err_get "code" e = Some (PVal (VStr ""))).
Proof.
  intros Hreply Hok Hbody Hmsg. exists (classified h r).
  unfold outcome. rewrite request_run, Hreply. simpl. rewrite Hok.
  unfold classified, errorBody_of. rewrite Hbody. simpl.
  unfold or_else. rewrite Hmsg. simpl.
  split; [done|]. split; [done|]. split; [done|]. split; [done|].
  by intros v ->.
Qed.

Lemma non_2xx_without_message_witness :
  exists e,
    outcome (HttpClient.get demo_host (env_reply not_found_null) demo_http
               "/mail/emails/e1") fresh = Thrown e
    /\ err_message e = "HTTP 404"
    /\ err_get "code" e = Some (PVal (VStr "")).
Proof.
  destruct (non_2xx_without_message demo_host (env_reply not_found_null)
              demo_http "GET" "/mail/emails/e1" (JPrim VUndefined) fresh
              not_found_null (JPrim VNull))
    as (e & Hout & Hmsg & _ & _ & Hcode); try reflexivity.
  exists e. split; [exact Hout|]. split; [by rewrite Hmsg|].
  by apply (Hcode VNull).
Defined.

(** ** Hydration, once more *)

Lemma step_changes h ks o k :
  step h ks o !! k <> o !! k ->
  k = fst ks
  /\ exists s, o !! k = Some (VStr s)
               /\ step h ks o !! k = Some (VDate (Date_parse h s)).
Proof.
  rewrite step_wants. destruct (wants ks o) eqn:Hw; [|done].
  destruct (decide (fst ks = k)) as [<-|Hne]; [|by rewrite lookup_insert_ne].
  intros _. split; [done|]. rewrite lookup_insert_eq.
  unfold wants in Hw. apply andb_true_iff in Hw as [_ Hty].
  unfold prop in *. destruct (o !! fst ks) as [[]|]; try discriminate.
  eauto.
Qed.

Lemma steps_changes h l k : forall o,
  steps h l o !! k <> o !! k ->
  In k (map fst l)
  /\ exists s, o !! k = Some (VStr s)
               /\ steps h l o !! k = Some (VDate (Date_parse h s)).
Proof.
  induction l as [|ks l IH]; intros o Hne; [done|].
  rewrite steps_cons in *.
  destruct (decide (step h ks o !! k = o !! k)) as [Hsame|Hdiff].
  - rewrite <- Hsame in Hne. destruct (IH _ Hne) as (Hin & s & Hs & Hres).
    split; [by right|]. exists s. by rewrite <- Hsame.
  - destruct (step_changes _ _ _ _ Hdiff) as (-> & s & Hs & Hres).
    split; [by left|]. exists s. split; [done|].
    rewrite steps_lookup_native; [done|].
    unfold prop. by rewrite Hres.
Qed.

Lemma step_dom h ks (o : Obj) : dom (step h ks o) = dom o.
Proof.
  rewrite step_wants. destruct (wants ks o) eqn:Hw; [|done].
  apply dom_insert_lookup_L.
  unfold wants in Hw. apply andb_true_iff in Hw as [_ Hty].
  unfold prop in Hty. destruct (o !! fst ks) as [v|]; [eauto|discriminate].
Qed.

Lemma steps_dom h l : forall o : Obj, dom (steps h l o) = dom o.
Proof.
  induction l as [|ks l IH]; intros o; [done|].
  by rewrite steps_cons, IH, step_dom.
Qed.

Lemma hydrators_plan h :
  Forall (fun f => exists l, f = steps h l /\ incl (map fst l) date_fields)
    (hydrators h).
Proof.
  assert (Hplan : forall (f : Obj -> Obj) l,
             f = steps h l -> forallb (fun k => bool_decide (In k date_fields))
                                (map fst l) = true ->
             exists l, f = steps h l /\ incl (map fst l) date_fields).
  { intros f l Hf Hall. exists l. split; [done|]. intros k Hk.
    rewrite forallb_forall in Hall. specialize (Hall k Hk).
    by apply bool_decide_eq_true in Hall. }
  unfold hydrators.
  repeat (constructor;
          [ first
              [ by apply (Hplan _ [("createdAt", false); ("updatedAt", false)])
              | by apply (Hplan _ [("createdAt", false); ("completedAt", true)])
              | by apply (Hplan _ [("createdAt", false); ("startedAt", true);
                                   ("completedAt", true)])
              | by apply (Hplan _ [("createdAt", false); ("updatedAt", false);
                                   ("lastRunAt", true); ("nextRunAt", true)])
              | by apply (Hplan _ [("periodStart", false); ("periodEnd", false)]) ]
          | ]).
  constructor.
Qed.

(** X13: the only change a hydration helper ever makes to an object is to
    replace the string held by one of the eight date properties by the
    [Date] parsed from it: it adds no property, removes none, and leaves
    every other value as it is. *)
Theorem hydration_only_parses_dates (h : Host) :
  Forall
    (fun f : Obj -> Obj =>
       forall o : Obj,
         dom (f o) = dom o
         /\ forall k, f o !! k <> o !! k ->
              In k date_fields
              /\ exists s, o !! k = Some (VStr s)
                           /\ f o !! k = Some (VDate (Date_parse h s)))
    (hydrators h).
Proof.
  eapply Forall_impl; [apply hydrators_plan|].
  intros f (l & -> & Hincl) o. split; [apply steps_dom|].
  intros k Hne. destruct (steps_changes _ _ _ _ Hne) as (Hin & Hs).
  split; [by apply Hincl|done].
Qed.

Lemma hydration_only_parses_dates_witness :
  dom (Workflows.convertRunDates demo_host processing) = dom processing
  /\ Workflows.convertRunDates demo_host processing !! "status"
     = processing !! "status".
Proof.
  pose proof (hydration_only_parses_dates demo_host) as Hall.
  rewrite List.Forall_forall in Hall.
  destruct (Hall (Workflows.convertRunDates demo_host)) with (o := processing)
    as (Hdom & Hchange).
  - unfold hydrators. simpl. tauto.
  - split; [exact Hdom|].
    destruct (decide (Workflows.convertRunDates demo_host processing !! "status"
                      = processing !! "status")) as [Heq|Hne]; [exact Heq|].
    destruct (Hchange _ Hne) as [Hin _].
    unfold date_fields in Hin. simpl in Hin.
    exfalso. intuition discriminate.
Defined.

Lemma shape_plan op h :
  exists l, hydrate (shape op) h = steps h l
            /\ In ("createdAt", false) l /\ In ("completedAt", true) l.
Proof.
  destruct op;
    first
      [ exists [("createdAt", false); ("completedAt", true)];
        split; [reflexivity|]; simpl; tauto
      | exists [("createdAt", false); ("startedAt", true);
                ("completedAt", true)];
        split; [reflexivity|]; simpl; tauto ].
Qed.

Lemma steps_parses h l k s (o : Obj) :
  prop o k = VStr s ->
  prop (steps h l o) k = VStr s
  \/ prop (steps h l o) k = VDate (Date_parse h s).
Proof.
  intros Hs.
  destruct (decide (steps h l o !! k = o !! k)) as [Hsame|Hdiff].
  - left. unfold prop in *. by rewrite Hsame.
  - right. destruct (steps_changes _ _ _ _ Hdiff) as (_ & s' & Hs' & Hres).
    unfold prop in *. rewrite Hs' in Hs. injection Hs as ->.
    by rewrite Hres.
Qed.

(** X14: in the snapshot an operation hydrates, [createdAt] never holds a
    string and [completedAt] holds none but the empty one: a string
    [createdAt], and a non-empty string [completedAt], have become the
    [Date] parsed from them. *)
Theorem hydrated_snapshot_dates (op : WaitOp) (h : Host) (o : Obj) :
  let snapshot := hydrate (shape op) h o in
  typeof (prop snapshot "createdAt") <> "string"
  /\ (forall s, prop o "createdAt" = VStr s ->
        prop snapshot "createdAt" = VDate (Date_parse h s))
  /\ (forall s, prop snapshot "completedAt" = VStr s -> s = "")
  /\ (forall s, prop o "completedAt" = VStr s -> s <> "" ->
        prop snapshot "completedAt" = VDate (Date_parse h s)).
Proof.
  intros snapshot. unfold snapshot.
  destruct (shape_plan op h) as (l & -> & Hcreated & Hcompleted).
  pose proof (steps_settled h l o) as Hall.
  rewrite List.Forall_forall in Hall.
  pose proof (Hall _ Hcreated) as Hc. pose proof (Hall _ Hcompleted) as Hd.
  unfold wants in Hc, Hd. simpl in Hc, Hd.
  assert (H1 : typeof (prop (steps h l o) "createdAt") <> "string").
  { intros Hty. by rewrite Hty in Hc. }
  assert (H3 : forall s, prop (steps h l o) "completedAt" = VStr s -> s = "").
  { intros s Hs. rewrite Hs in Hd. simpl in Hd. rewrite andb_true_r in Hd.
    apply negb_false_iff in Hd. by apply String.eqb_eq in Hd. }
  split; [done|]. split; [|split; [done|]].
  - intros s Hs. destruct (steps_parses h l _ _ _ Hs) as [Hkeep|Hparsed];
      [|done]. rewrite Hkeep in H1. done.
  - intros s Hs Hne. destruct (steps_parses h l _ _ _ Hs) as [Hkeep|Hparsed];
      [|done]. by destruct (Hne (H3 _ Hkeep)).
Qed.

Lemma hydrated_snapshot_dates_witness :
  prop (hydrate (shape Workflows_runAndWait) demo_host processing) "createdAt"
  = VDate (Some 10).
Proof.
  destruct (hydrated_snapshot_dates Workflows_runAndWait demo_host processing)
    as (_ & Hcreated & _).
  rewrite (Hcreated "2024-01-01"); [reflexivity|by vm_compute].
Defined.

(** ** The other methods of the clients *)

(** X15: [Workflows.get] addresses a workflow by its id when the request
    has one, and then ignores slug, environment and project; without an
    id it sends them as a query, and when the request names none of them
    the path still ends in a question mark.  A workflow in the answer is
    returned hydrated. *)
Theorem workflow_get_by_id_or_query (h : Host) (env : Env)
    (http : HttpClient.t) (request : Obj) (s : State) :
  let run := Workflows.get h env http request in
  (exists rq,
      sent (final run s) = sent s ++ [rq]
      /\ req_method rq = "GET" /\ req_body rq = None
      /\ (truthy (prop request "id") = true ->
          req_url rq
          = HttpClient.baseUrl http
            +:+ ("/workflows/workflows/" +:+ ToString h (prop request "id")))
      /\ (truthy (prop request "id") = false ->
          req_url rq
          = HttpClient.baseUrl http
            +:+ ("/workflows/workflows?"
                 +:+ params_toString h
                       (set_if_present h request "projectSlug"
                          (set_if_present h request "environment"
                             (set_if_present h request "slug" [])))))
      /\ (truthy (prop request "id") = false ->
          truthy (prop request "slug") = false ->
          truthy (prop request "environment") = false ->
          truthy (prop request "projectSlug") = false ->
          req_url rq = HttpClient.baseUrl http +:+ "/workflows/workflows?"))
  /\ (forall o, answers (net_reply env (length (sent s))) o ->
        outcome run s = Done (JObject (Workflows.convertDates h o))).
Proof.
  intros run. unfold outcome, final, run, Workflows.get, HttpClient.get, bind.
  rewrite request_run. split.
  - eexists. split.
    + destruct (delivered h _) as [[o|v]|e|]; simpl; try reflexivity.
      destruct v; reflexivity.
    + simpl. split; [done|]. split; [done|]. split; [by intros ->|].
      split; [by intros ->|].
      intros -> Hslug Henv Hproj. unfold set_if_present.
      by rewrite Hslug, Henv, Hproj.
  - intros o Ho. by rewrite (delivered_answers _ _ _ Ho).
Qed.

Lemma workflow_get_by_id_or_query_witness :
  map req_url
    (sent (final (Workflows.get demo_host env_refused demo_http
                    {[ "id" := VStr "w1"; "environment" := VStr "sandbox" ]})
             fresh))
  = ["https://api.stack0.dev/v1/workflows/workflows/w1"]
  /\ map req_url
       (sent (final (Workflows.get demo_host env_refused demo_http ∅) fresh))
     = ["https://api.stack0.dev/v1/workflows/workflows?"].
Proof.
  destruct (workflow_get_by_id_or_query demo_host env_refused demo_http
              {[ "id" := VStr "w1"; "environment" := VStr "sandbox" ]} fresh)
    as ((rq & Hsent & _ & _ & Hid & _) & _).
  destruct (workflow_get_by_id_or_query demo_host env_refused demo_http
              ∅ fresh)
    as ((rq' & Hsent' & _ & _ & _ & _ & Hbare) & _).
  rewrite Hsent, Hsent'. simpl. split.
  - rewrite Hid; [reflexivity|by vm_compute].
  - rewrite Hbare; [reflexivity|by vm_compute..].
Defined.

(** X16: the three [updateSchedule] methods build the same request from
    the same arguments: the id in the path, environment and project in
    the query, and a body with every other property of the request and
    none of these three; [Webdata] sends it as a PATCH, [Screenshots] and
    [Extraction] send it as a POST. *)
Theorem update_schedule_patch_or_post (h : Host) (env : Env)
    (http : HttpClient.t) (request : Obj) (s : State) :
  exists rq data,
    sent (final (Webdata.updateSchedule h env http request) s)
    = sent s ++ [rq]
    /\ req_method rq = "PATCH"
    /\ sent (final (Screenshots.updateSchedule h env http request) s)
       = sent s ++ [{| req_url := req_url rq; req_method := "POST";
                       req_headers := req_headers rq;
                       req_body := req_body rq |}]
    /\ final (Extraction.updateSchedule h env http request) s
       = final (Screenshots.updateSchedule h env http request) s
    /\ req_body rq = Some (stringify h (JObject data))
    /\ data !! "id" = None /\ data !! "environment" = None
    /\ data !! "projectId" = None
    /\ (forall k, k <> "id" -> k <> "environment" -> k <> "projectId" ->
                  data !! k = request !! k)
    /\ req_url rq
       = HttpClient.baseUrl http
         +:+ ("/webdata/schedules/" +:+ ToString h (prop request "id")
              +:+ query_suffix
                    (params_toString h
                       (set_if_present h request "projectId"
                          (set_if_present h request "environment" [])))).
Proof.
  eexists. exists (base.delete "id"
                     (base.delete "environment"
                        (base.delete "projectId" request))).
  unfold final, Webdata.updateSchedule, Screenshots.updateSchedule,
    Extraction.updateSchedule, HttpClient.patch, HttpClient.post.
  rewrite !request_run. simpl.
  split; [reflexivity|]. split; [done|]. split; [done|]. split; [done|].
  split; [done|].
  split; [by simplify_map_eq|]. split; [by simplify_map_eq|].
  split; [by simplify_map_eq|]. split; [|done].
  intros k H1 H2 H3. by simplify_map_eq.
Qed.

Lemma update_schedule_patch_or_post_witness :
  map req_method
    (sent (final (Webdata.updateSchedule demo_host env_refused demo_http
                    schedule_update) fresh)) = ["PATCH"]
  /\ map req_method
       (sent (final (Screenshots.updateSchedule demo_host env_refused
                       demo_http schedule_update) fresh)) = ["POST"]
  /\ map req_url
       (sent (final (Webdata.updateSchedule demo_host env_refused demo_http
                       schedule_update) fresh))
     = ["https://api.stack0.dev/v1/webdata/schedules/s1?environment=sandbox"].
Proof.
  destruct (update_schedule_patch_or_post demo_host env_refused demo_http
              schedule_update fresh)
    as (rq & data & Hweb & Hpatch & Hshots & _ & _ & _ & _ & _ & _ & Hurl).
  rewrite Hweb, Hshots. simpl. rewrite Hpatch, Hurl.
  split; [done|]. split; [done|]. by vm_compute.
Defined.

(** ** Transform URLs *)

(** Up to [MAX_SAFE_INTEGER] nothing is rounded. *)
Lemma round_double_exact (x : Z) :
  Z.abs x <= CDN.MAX_SAFE_INTEGER -> CDN.round_double x = x.
Proof.
  intros Hx. unfold CDN.round_double. cbv zeta.
  destruct (Z.leb_spec (Z.abs x) CDN.MAX_SAFE_INTEGER); [done|lia].
Qed.

(** For a width whose differences with the allowed widths are exact, the
    comparison of [getNearestWidth] is the one of the integers. *)
Lemma nearer_exact (w prev curr : Z) :
  Z.abs w + 3840 <= CDN.MAX_SAFE_INTEGER ->
  0 <= prev <= 3840 -> 0 <= curr <= 3840 ->
  (Z.abs (CDN.round_double (curr - w))
   <? Z.abs (CDN.round_double (prev - w)))%Z
  = (Z.abs (curr - w) <? Z.abs (prev - w))%Z.
Proof.
  intros Hw Hprev Hcurr. rewrite !round_double_exact; [done|lia|lia].
Qed.

(** The result is always one of the allowed widths. *)
Lemma getNearestWidth_allowed (w : Z) :
  In (CDN.getNearestWidth w) CDN.ALLOWED_WIDTHS.
Proof.
  unfold CDN.getNearestWidth.
  assert (Hfold : forall l prev,
             In prev CDN.ALLOWED_WIDTHS ->
             (forall c, In c l -> In c CDN.ALLOWED_WIDTHS) ->
             In (fold_left
                   (fun prev curr =>
                      if (Z.abs (CDN.round_double (curr - w))
                          <? Z.abs (CDN.round_double (prev - w)))%Z
                      then curr else prev) l prev) CDN.ALLOWED_WIDTHS).
  { induction l as [|c l IH]; intros prev Hprev Hl; [done|].
    simpl. apply IH.
    - destruct (_ <? _)%Z; [apply Hl; by left|done].
    - intros c' Hc'. apply Hl. by right. }
  apply Hfold.
  - simpl. tauto.
  - intros c Hc. simpl in *. tauto.
Qed.

(** The allowed width chosen for each requested width whose differences
    with the allowed widths are exact: the thresholds are the midpoints,
    and a midpoint goes to the smaller width. *)
Lemma getNearestWidth_cases (w : Z) :
  Z.abs w + 3840 <= CDN.MAX_SAFE_INTEGER ->
  CDN.getNearestWidth w =
  if (w <=? 320)%Z then 256
  else if (w <=? 512)%Z then 384
  else if (w <=? 695)%Z then 640
  else if (w <=? 789)%Z then 750
  else if (w <=? 954)%Z then 828
  else if (w <=? 1140)%Z then 1080
  else if (w <=? 1560)%Z then 1200
  else if (w <=? 1984)%Z then 1920
  else if (w <=? 2944)%Z then 2048
  else 3840.
Proof.
  intros Hw.
  unfold CDN.getNearestWidth, CDN.ALLOWED_WIDTHS. cbn [hd tl fold_left].
  repeat match goal with
         | |- context [(?a <=? ?b)%Z] => destruct (Z.leb_spec a b)
         end;
    repeat (match goal with
            | |- context [(Z.abs (CDN.round_double (Zpos ?c - w))
                           <? Z.abs (CDN.round_double (Zpos ?p - w)))%Z] =>
                rewrite (nearer_exact w (Zpos p) (Zpos c) Hw) by lia;
                destruct (Z.ltb_spec (Z.abs (Zpos c - w)) (Z.abs (Zpos p - w)));
                try lia
            end; cbv iota);
    reflexivity.
Qed.

(** Beyond that range the subtraction rounds: at 10^20 and at 2^66 every
    difference rounds to the same double and the first width is kept. *)
Lemma getNearestWidth_rounded :
  CDN.round_double (256 - 10 ^ 20) = CDN.round_double (3840 - 10 ^ 20)
  /\ CDN.getNearestWidth (10 ^ 20) = 256
  /\ CDN.getNearestWidth (2 ^ 66) = 256
  /\ CDN.getNearestWidth 4000 = 3840.
Proof. repeat split; by vm_compute. Qed.

(** X17: for a width whose differences with the allowed widths are exact
    doubles (an integer with |w| + 3840 <= 2^53 - 1), the width sent is
    an allowed width nearest to the one asked for, and of two equally near
    allowed widths it is the smaller. *)
Theorem nearest_width_optimal (w a : Z) :
  Z.abs w + 3840 <= CDN.MAX_SAFE_INTEGER ->
  In a CDN.ALLOWED_WIDTHS ->
  In (CDN.getNearestWidth w) CDN.ALLOWED_WIDTHS
  /\ Z.abs (CDN.getNearestWidth w - w) <= Z.abs (a - w)
  /\ (Z.abs (a - w) = Z.abs (CDN.getNearestWidth w - w) ->
      CDN.getNearestWidth w <= a).
Proof.
  intros Hw Ha. rewrite (getNearestWidth_cases w Hw).
  unfold CDN.ALLOWED_WIDTHS in *. simpl in Ha.
  repeat match goal with
         | |- context [(?x <=? ?y)%Z] => destruct (Z.leb_spec x y)
         end;
    (split; [simpl; tauto|]);
    repeat (destruct Ha as [<-|Ha]; [lia|]); destruct Ha.
Qed.

Lemma nearest_width_optimal_witness :
  In 828 CDN.ALLOWED_WIDTHS
  /\ CDN.getNearestWidth 789 = 750
  /\ Z.abs (CDN.getNearestWidth 789 - 789) <= Z.abs (828 - 789).
Proof.
  assert (Hin : In 828 CDN.ALLOWED_WIDTHS) by (simpl; tauto).
  assert (Hw : Z.abs 789 + 3840 <= CDN.MAX_SAFE_INTEGER)
    by (vm_compute; discriminate).
  split; [exact Hin|]. split; [by vm_compute|].
  apply (nearest_width_optimal 789 828 Hw Hin).
Defined.

(** X18: snapping is idempotent for every width: an allowed width is
    kept, and the result is always an allowed width, so a snapped width
    snaps to itself.  For a width whose differences with the allowed
    widths are exact doubles, below the smallest allowed width (zero and
    negative widths included) the result is 256, and above the largest it
    is 3840. *)
Theorem nearest_width_idempotent (w : Z) :
  CDN.getNearestWidth (CDN.getNearestWidth w) = CDN.getNearestWidth w
  /\ (In w CDN.ALLOWED_WIDTHS -> CDN.getNearestWidth w = w)
  /\ (Z.abs w + 3840 <= CDN.MAX_SAFE_INTEGER ->
      (w <= 256 -> CDN.getNearestWidth w = 256)
      /\ (3840 <= w -> CDN.getNearestWidth w = 3840)).
Proof.
  assert (Hfix : forall a, In a CDN.ALLOWED_WIDTHS -> CDN.getNearestWidth a = a).
  { unfold CDN.ALLOWED_WIDTHS. simpl. intros a Ha.
    repeat (destruct Ha as [<-|Ha]; [by vm_compute|]). destruct Ha. }
  split; [|split; [exact (Hfix w)|]].
  - apply Hfix, getNearestWidth_allowed.
  - intros Hw. rewrite (getNearestWidth_cases w Hw). split; intros Hend.
    + destruct (Z.leb_spec w 320); [done|lia].
    + repeat match goal with
             | |- context [(w <=? ?y)%Z] => destruct (Z.leb_spec w y); try lia
             end.
Qed.

Lemma nearest_width_idempotent_witness :
  In 1080 CDN.ALLOWED_WIDTHS /\ CDN.getNearestWidth 1080 = 1080
  /\ CDN.getNearestWidth (-5) = 256.
Proof.
  destruct (nearest_width_idempotent 1080) as (_ & Hfix & _).
  destruct (nearest_width_idempotent (-5)) as (_ & _ & Hends).
  assert (Hin : In 1080 CDN.ALLOWED_WIDTHS) by (simpl; tauto).
  split; [exact Hin|]. split; [exact (Hfix Hin)|].
  destruct Hends as [Hlow _]; [vm_compute; discriminate|].
  apply Hlow. lia.
Defined.

(** X19: among the widths whose differences with the allowed widths are
    exact doubles, snapping is monotone: a larger width asked for never
    gives a smaller width sent. *)
Theorem nearest_width_monotone (w1 w2 : Z) :
  Z.abs w1 + 3840 <= CDN.MAX_SAFE_INTEGER ->
  Z.abs w2 + 3840 <= CDN.MAX_SAFE_INTEGER ->
  w1 <= w2 -> CDN.getNearestWidth w1 <= CDN.getNearestWidth w2.
Proof.
  intros Hw1 Hw2 Hle.
  rewrite (getNearestWidth_cases w1 Hw1), (getNearestWidth_cases w2 Hw2).
  repeat match goal with
         | |- context [(w1 <=? ?y)%Z] => destruct (Z.leb_spec w1 y)
         end;
    repeat match goal with
           | |- context [(w2 <=? ?y)%Z] => destruct (Z.leb_spec w2 y); try lia
           end.
Qed.

Lemma nearest_width_monotone_witness :
  700 <= 900 /\ CDN.getNearestWidth 700 <= CDN.getNearestWidth 900.
Proof.
  assert (H : 700 <= 900) by lia. split; [exact H|].
  apply (nearest_width_monotone 700 900); [| |exact H];
    vm_compute; discriminate.
Defined.

Lemma In_params_set_ne k v k' v' (ps : URLSearchParams) :
  k <> k' -> In (k, v) (params_set k' v' ps) <-> In (k, v) ps.
Proof.
  intros Hne. induction ps as [|[k0 v0] ps IH]; simpl.
  - split; [intros [[= -> ->]|[]]; done|intros []].
  - destruct (String.eqb_spec k0 k') as [->|Hk0]; simpl.
    + split; (intros [[= -> ->]|Hin]; [done|by right]).
    + rewrite IH. done.
Qed.

Lemma In_params_set_fresh k v v' (ps : URLSearchParams) :
  (forall x, ~ In (k, x) ps) ->
  In (k, v) (params_set k v' ps) <-> v = v'.
Proof.
  intros Hfresh. induction ps as [|[k0 v0] ps IH]; simpl.
  - split; [by intros [[= ->]|[]]|intros ->; by left].
  - destruct (String.eqb_spec k0 k) as [->|Hk0]; simpl.
    + destruct (Hfresh v0). by left.
    + rewrite IH.
      * split; [intros [[= -> ->]|Hv]; done|intros ->; by right].
      * intros x Hx. apply (Hfresh x). by right.
Qed.

Lemma In_set_text_ne k v name o ps :
  k <> name -> In (k, v) (CDN.set_text name o ps) <-> In (k, v) ps.
Proof.
  intros Hne. unfold CDN.set_text. destruct o as [s|]; [|done].
  destruct (truthy (VStr s)); [by apply In_params_set_ne|done].
Qed.

Lemma In_set_number_ne k v name o ps :
  k <> name -> In (k, v) (CDN.set_number name o ps) <-> In (k, v) ps.
Proof.
  intros Hne. unfold CDN.set_number. destruct o as [n|]; [|done].
  by apply In_params_set_ne.
Qed.

Lemma In_set_flag_ne k v name text o ps :
  k <> name -> In (k, v) (CDN.set_flag name text o ps) <-> In (k, v) ps.
Proof.
  intros Hne. unfold CDN.set_flag. destruct o as [[]|]; [|done..].
  by apply In_params_set_ne.
Qed.

Ltac skip_other_names :=
  repeat first
    [ rewrite In_set_text_ne by discriminate
    | rewrite In_set_number_ne by discriminate
    | rewrite In_set_flag_ne by discriminate
    | rewrite In_params_set_ne by discriminate ].

(** X20: what the transform query holds: [w] is there exactly when a
    width is asked for and is then the snapped width, never the width as
    given; [q] is there for every quality given, zero included; [f] only
    for a non-empty format; [grayscale] only for [true]. *)
Theorem transform_query_contents (options : CDN.TransformOptions)
    (v : string) :
  (In ("w", v) (CDN.transformParams options)
   <-> exists w, CDN.width options = Some w
                 /\ v = pretty (CDN.getNearestWidth w))
  /\ (In ("q", v) (CDN.transformParams options)
      <-> exists n, CDN.quality options = Some n /\ v = pretty n)
  /\ (In ("f", v) (CDN.transformParams options)
      <-> CDN.format options = Some v /\ v <> "")
  /\ (In ("grayscale", v) (CDN.transformParams options)
      <-> CDN.grayscale options = Some true /\ v = "true").
Proof.
  unfold CDN.transformParams. cbv zeta.
  split; [|split; [|split]].
  - skip_other_names. destruct (CDN.width options) as [w|].
    + rewrite In_params_set_fresh.
      * split; [intros ->; eauto|by intros (w' & [= <-] & ->)].
      * intros x. skip_other_names. intros [].
    + skip_other_names. simpl. split; [done|by intros (w & [=] & _)].
  - skip_other_names.
    assert (Hq : In ("q", v)
                   (CDN.set_number "q" (CDN.quality options)
                      (CDN.set_text "f" (CDN.format options) []))
                 <-> exists n, CDN.quality options = Some n /\ v = pretty n).
    { unfold CDN.set_number at 1. destruct (CDN.quality options) as [n|].
      - rewrite In_params_set_fresh.
        + split; [intros ->; eauto|by intros (n' & [= <-] & ->)].
        + intros x. skip_other_names. intros [].
      - skip_other_names. simpl. split; [done|by intros (n & [=] & _)]. }
    destruct (CDN.width options); skip_other_names; exact Hq.
  - assert (Hf : In ("f", v) (CDN.set_text "f" (CDN.format options) [])
                 <-> CDN.format options = Some v /\ v <> "").
    { unfold CDN.set_text. destruct (CDN.format options) as [s|]; simpl.
      - destruct (String.eqb_spec s ""); simpl.
        + split; [done|]. intros [[= ->] Hne]. done.
        + split; [intros [[= ->]|[]]; done|intros [[= ->] _]; by left].
      - split; [done|by intros [[=] _]]. }
    skip_other_names.
    destruct (CDN.width options); skip_other_names; exact Hf.
  - skip_other_names.
    unfold CDN.set_flag at 1. destruct (CDN.grayscale options) as [[]|].
    + rewrite In_params_set_fresh.
      * split; [intros ->; done|by intros [_ ->]].
      * intros x. skip_other_names.
        destruct (CDN.width options); skip_other_names; intros [].
    + skip_other_names.
      destruct (CDN.width options); skip_other_names; simpl;
        (split; [done|by intros [[=] _]]).
    + skip_other_names.
      destruct (CDN.width options); skip_other_names; simpl;
        (split; [done|by intros [[=] _]]).
Qed.

Lemma transform_query_contents_witness :
  CDN.transformParams thumbnail_options = [("q", "0"); ("w", "828")]
  /\ In ("w", "828") (CDN.transformParams thumbnail_options)
  /\ In ("q", "0") (CDN.transformParams thumbnail_options).
Proof.
  split; [by vm_compute|].
  destruct (transform_query_contents thumbnail_options "828") as (Hw & _).
  destruct (transform_query_contents thumbnail_options "0") as (_ & Hq & _).
  split.
  - apply Hw. exists 800. split; [reflexivity|by vm_compute].
  - apply Hq. exists 0. split; [reflexivity|by vm_compute].
Defined.

Lemma append_empty (a b : string) : a +:+ b = "" -> a = "" /\ b = "".
Proof. destruct a; [done|discriminate]. Qed.

Lemma params_toString_empty h (ps : URLSearchParams) :
  params_toString h ps = "" <-> ps = [].
Proof.
  split; [|by intros ->].
  unfold params_toString. destruct ps as [|[k v] ps]; [done|].
  simpl. intros Hempty. exfalso.
  destruct (map _ ps); simpl in Hempty.
  - apply append_empty in Hempty as [_ Hempty]. discriminate.
  - apply append_empty in Hempty as [Hempty _].
    apply append_empty in Hempty as [_ Hempty]. discriminate.
Qed.

Lemma endsWith_slash_append (c : string) : endsWith_slash (c +:+ "/") = true.
Proof.
  induction c as [|a c IH]; [reflexivity|].
  change (String a c +:+ "/") with (String a (c +:+ "/")).
  simpl. destruct (c +:+ "/") eqn:Hc; [|exact IH].
  by destruct c.
Qed.

Lemma slice_but_last_append (c : string) : slice_but_last (c +:+ "/") = c.
Proof.
  induction c as [|a c IH]; [reflexivity|].
  change (String a c +:+ "/") with (String a (c +:+ "/")).
  simpl. destruct (c +:+ "/") eqn:Hc; [by destruct c|].
  by rewrite IH.
Qed.

(** X21: for a key that is not an http(s) URL, [getTransformUrl] throws
    when no CDN URL is configured (an empty one included); otherwise the
    URL is the CDN URL, the key and, only when some parameter is set, the
    query; one trailing slash of the CDN URL makes no difference. *)
Theorem transform_url_from_key (h : Host) (new_URL : string -> option URL)
    (key : string) (options : CDN.TransformOptions) :
  String.prefix "http://" key = false ->
  String.prefix "https://" key = false ->
  (forall cdnUrl, cdnUrl = None \/ cdnUrl = Some "" ->
     exists e, CDN.getTransformUrl h new_URL cdnUrl key options = Thrown e)
  /\ (forall c, c <> "" -> endsWith_slash c = false ->
        CDN.getTransformUrl h new_URL (Some (c +:+ "/")) key options
        = CDN.getTransformUrl h new_URL (Some c) key options
        /\ (CDN.transformParams options = [] ->
            CDN.getTransformUrl h new_URL (Some c) key options
            = Done (c +:+ "/" +:+ key))
        /\ (CDN.transformParams options <> [] ->
            CDN.getTransformUrl h new_URL (Some c) key options
            = Done ((c +:+ "/" +:+ key) +:+ "?"
                    +:+ CDN.buildTransformQuery h options))).
Proof.
  intros Hhttp Hhttps. unfold CDN.getTransformUrl. rewrite Hhttp, Hhttps.
  simpl. split.
  - intros cdnUrl [->| ->]; simpl; eauto.
  - intros c Hc Hslash.
    assert (Htc : String.eqb c "" = false) by (by apply String.eqb_neq).
    assert (Htc' : String.eqb (c +:+ "/") "" = false).
    { apply String.eqb_neq. intros Happ.
      apply append_empty in Happ as [_ Happ]. discriminate. }
    rewrite Htc, Htc', endsWith_slash_append, slice_but_last_append, Hslash.
    simpl. split; [done|].
    unfold CDN.buildTransformQuery. split.
    + intros ->. reflexivity.
    + intros Hsome.
      destruct (String.eqb_spec
                  (params_toString h (CDN.transformParams options)) "")
        as [Hempty|Hfull]; [|reflexivity].
      apply params_toString_empty in Hempty. done.
Qed.

Lemma transform_url_from_key_witness :
  CDN.getTransformUrl demo_host no_URL (Some "https://cdn.example.dev/")
    "images/a.png" thumbnail_options
  = Done "https://cdn.example.dev/images/a.png?q=0&w=828"
  /\ CDN.getTransformUrl demo_host no_URL (Some "https://cdn.example.dev")
       "images/a.png" no_options
     = Done "https://cdn.example.dev/images/a.png"
  /\ exists e, CDN.getTransformUrl demo_host no_URL None "images/a.png"
                 no_options = Thrown e.
Proof.
  destruct (transform_url_from_key demo_host no_URL "images/a.png"
              thumbnail_options) as [_ Hkey]; [reflexivity|reflexivity|].
  destruct (Hkey "https://cdn.example.dev") as (Hslash & _ & Hquery);
    [discriminate|reflexivity|].
  destruct (transform_url_from_key demo_host no_URL "images/a.png"
              no_options) as [Hnone Hkey']; [reflexivity|reflexivity|].
  destruct (Hkey' "https://cdn.example.dev") as (_ & Hbare & _);
    [discriminate|reflexivity|].
  split; [|split].
  - change "https://cdn.example.dev/" with ("https://cdn.example.dev" +:+ "/").
    rewrite Hslash, Hquery; [by vm_compute|by vm_compute].
  - rewrite Hbare; [reflexivity|reflexivity].
  - apply Hnone. by left.
Defined.
